(** * Discovery / merge / classification pipeline of [scraper.py]

    A shallow embedding of the pure core of [src/scraper.py]: the name
    cleaner, the category classifier, the headquarters resolver, the two
    discovery runners, the exhibitor adapters, the merger (both of its
    paths) and the enricher.

    Conventions.
    - A Python [str] is the sequence of its code points, [str]; a literal
      is read as the code points of its text.  White space ([str.strip],
      [str.split], [\s]) is Python's full set.  The case mappings and the
      classes [\d] and [\w] are computed on ASCII text; beyond ASCII they
      are Python's Unicode database, the class [Py.Unicode], over which
      every property is quantified.
    - A CSV row is the record [Row] with the nine columns of the schema, as
      the reader of the path taken hands it over: [csv.DictReader] gives
      the cells as written, [pd.read_csv(...).fillna("")] gives them with
      the missing-value markers blanked ([read_csv]).
    - The network is a parameter: a search call or a page fetch is given
      by its outcome ([None] when the call raised).
    - [print] and [time.sleep] leave the data untouched and are elided. *)

From Stdlib Require Import NArith ZArith List.
From Stdlib.Strings Require Import Byte.
From stdpp Require Import base option list gmap.

Local Open Scope list_scope.

(** ** Text *)

(** A code point *)
Definition char : Type := N.

Inductive str : Type :=
| EmptyStr
| Str (c : char) (s : str).

(** How a literal is read: the code points of its UTF-8 text. *)
Module Utf8.

(** [n] continuation bytes *)
Fixpoint continuation (n : nat) (acc : N) (bytes : list N)
  : option (N * list N) :=
  match n with
  | O => Some (acc, bytes)
  | S n' =>
      match bytes with
      | b :: bytes' =>
          if ((128 <=? b) && (b <? 192))%N
          then continuation n' (acc * 64 + (b - 128))%N bytes'
          else None
      | [] => None
      end
  end.

Fixpoint decode (fuel : nat) (bytes : list N) : option str :=
  match fuel with
  | O => match bytes with [] => Some EmptyStr | _ => None end
  | S fuel' =>
      match bytes with
      | [] => Some EmptyStr
      | b :: bytes' =>
          let sequence n lead :=
            match continuation n lead bytes' with
            | Some (c, rest) => Str c <$> decode fuel' rest
            | None => None
            end in
          if (b <? 128)%N then Str b <$> decode fuel' bytes'
          else if (b <? 192)%N then None
          else if (b <? 224)%N then sequence 1%nat (b - 192)%N
          else if (b <? 240)%N then sequence 2%nat (b - 224)%N
          else sequence 3%nat (b - 240)%N
      end
  end.

Definition parse (bytes : list Byte.byte) : option str :=
  let codes := Byte.to_N <$> bytes in
  decode (length codes) codes.

Definition encode (c : N) : list N :=
  if (c <? 128)%N then [c]
  else if (c <? 2048)%N then [192 + c / 64; 128 + c mod 64]%N
  else if (c <? 65536)%N
  then [224 + c / 4096; 128 + (c / 64) mod 64; 128 + c mod 64]%N
  else [240 + c / 262144; 128 + (c / 4096) mod 64;
        128 + (c / 64) mod 64; 128 + c mod 64]%N.

Fixpoint codes (s : str) : list N :=
  match s with
  | EmptyStr => []
  | Str c s' => encode c ++ codes s'
  end.

Definition print (s : str) : option (list Byte.byte) :=
  mapM Byte.of_N (codes s).

End Utf8.

Declare Scope str_scope.
Delimit Scope str_scope with str.
Bind Scope str_scope with str.
String Notation str Utf8.parse Utf8.print : str_scope.
Local Open Scope str_scope.

Global Instance str_eq_dec : EqDecision str.
Proof. solve_decision. Defined.

Fixpoint str_to_list (s : str) : list char :=
  match s with
  | "" => []
  | Str c s' => c :: str_to_list s'
  end.

Fixpoint str_of_list (l : list char) : str :=
  match l with
  | [] => ""
  | c :: l' => Str c (str_of_list l')
  end.

Global Instance str_countable : Countable str.
Proof.
  apply (inj_countable' str_to_list str_of_list).
  intros s. induction s; cbn; congruence.
Defined.

(** The character of a one-character literal *)
Definition ch (s : str) : char :=
  match s with
  | Str c _ => c
  | "" => 0%N
  end.

(** ** Python string primitives *)

Module Py.

(** [a + b] *)
Fixpoint add (a b : str) : str :=
  match a with
  | "" => b
  | Str c a' => Str c (add a' b)
  end.

(** [len(s)] *)
Fixpoint len (s : str) : nat :=
  match s with
  | "" => O
  | Str _ s' => S (len s')
  end.

(** [a == b] *)
Fixpoint eqb (a b : str) : bool :=
  match a, b with
  | "", "" => true
  | Str x a', Str y b' => (x =? y)%N && eqb a' b'
  | _, _ => false
  end.

(** [s.startswith(p)] *)
Fixpoint prefix (p s : str) : bool :=
  match p with
  | "" => true
  | Str a p' =>
      match s with
      | Str b s' => (a =? b)%N && prefix p' s'
      | "" => false
      end
  end.

Definition startswith (p s : str) : bool := prefix p s.

(** [s[:n]] *)
Fixpoint take (n : nat) (s : str) : str :=
  match n, s with
  | S n', Str c s' => Str c (take n' s')
  | _, _ => ""
  end.

Fixpoint map (f : char -> char) (s : str) : str :=
  match s with
  | "" => ""
  | Str c s' => Str (f c) (map f s')
  end.

(** Every character of [s] is in the class [p]. *)
Fixpoint all_chars (p : char -> bool) (s : str) : bool :=
  match s with
  | "" => true
  | Str c s' => p c && all_chars p s'
  end.

Definition between (lo hi : N) (c : char) : bool :=
  ((lo <=? c) && (c <=? hi))%N.

(** [str.isspace] on one character: TAB..CR, FS..US, SPACE, NEL, the
    no-break space, the Ogham space mark, EN QUAD..HAIR SPACE, the line and
    paragraph separators, the narrow no-break space, the medium
    mathematical space and the ideographic space.  [str.strip],
    [str.split] and the class [\s] of [re] on [str] patterns use the same
    set. *)
Definition isspace (c : char) : bool :=
  between 9 13 c || between 28 32 c || (c =? 133)%N || (c =? 160)%N
  || (c =? 5760)%N || between 8192 8202 c || between 8232 8233 c
  || (c =? 8239)%N || (c =? 8287)%N || (c =? 12288)%N.

Definition islower (c : char) : bool := between 97 122 c.   (* [a-z] *)
Definition isupper (c : char) : bool := between 65 90 c.    (* [A-Z] *)
Definition isalpha (c : char) : bool := islower c || isupper c.
Definition isdigit (c : char) : bool := between 48 57 c.    (* [0-9] *)

(** [s.isascii()] *)
Definition isascii (s : str) : bool := all_chars (fun c => (c <? 128)%N) s.

Definition lower_char (c : char) : char :=
  if isupper c then (c + 32)%N else c.
Definition upper_char (c : char) : char :=
  if islower c then (c - 32)%N else c.

(** [s.lower()] and [s.upper()] on ASCII text *)
Definition ascii_lower : str -> str := map lower_char.
Definition ascii_upper : str -> str := map upper_char.

(** [s.title()] on ASCII text: a letter is upper-cased after a character
    that is not a letter and lower-cased after a letter. *)
Fixpoint title_go (prev_cased : bool) (s : str) : str :=
  match s with
  | "" => ""
  | Str c s' =>
      if isalpha c
      then Str (if prev_cased then lower_char c else upper_char c)
               (title_go true s')
      else Str c (title_go false s')
  end.
Definition ascii_title : str -> str := title_go false.

(** Python's Unicode database, as far as the program consults it.
    [unicode_lower s], [unicode_upper s] and [unicode_title s] are
    [s.lower()], [s.upper()] and [s.title()]; [unicode_isdecimal c] and
    [unicode_isalnum c] are [c.isdecimal()] and [c.isalnum()], which decide
    the classes [\d] and [\w] of [re] on [str] patterns.  They are
    consulted beyond ASCII only.  Three facts about [str.lower] are used:
    it maps no text but the empty one to the empty text, lower-casing
    twice is lower-casing once, and it introduces no slash. *)
Class Unicode : Type := {
  unicode_lower : str -> str;
  unicode_upper : str -> str;
  unicode_title : str -> str;
  unicode_isdecimal : char -> bool;
  unicode_isalnum : char -> bool;
  unicode_lower_nonempty s : unicode_lower s = "" -> s = "";
  unicode_lower_idem s :
    (if isascii (unicode_lower s) then ascii_lower (unicode_lower s)
     else unicode_lower (unicode_lower s)) = unicode_lower s;
  unicode_lower_slash s :
    all_chars (fun c => negb (c =? ch "/")%N) s = true ->
    all_chars (fun c => negb (c =? ch "/")%N) (unicode_lower s) = true
}.

(** A database that knows no cased character, digit or letter beyond
    ASCII.  It serves to evaluate the program at ASCII inputs, where the
    database is not consulted. *)
Definition ascii_only : Unicode.
Proof.
  refine {| unicode_lower := ascii_lower;
            unicode_upper := ascii_upper;
            unicode_title := ascii_title;
            unicode_isdecimal := fun _ => false;
            unicode_isalnum := fun _ => false |}.
  - intros [|c s] E; [reflexivity | discriminate E].
  - intros s. assert (ascii_lower (ascii_lower s) = ascii_lower s) as E.
    { induction s as [|c s IH]; [reflexivity|]. cbn. f_equal; [|exact IH].
      unfold lower_char. destruct (isupper c) eqn:Hc; [|by rewrite Hc].
      assert (isupper (c + 32)%N = false) as ->; [|reflexivity].
      unfold isupper, between in *.
      apply andb_true_iff in Hc as [H1%N.leb_le H2%N.leb_le].
      apply andb_false_iff. right. apply N.leb_gt. lia. }
    rewrite E. destruct (isascii _); reflexivity.
  - intros s. induction s as [|c s IH]; [reflexivity|].
    change (ascii_lower (Str c s)) with (Str (lower_char c) (ascii_lower s)).
    cbn [all_chars]. intros [Hc Hs]%andb_true_iff.
    rewrite (IH Hs), andb_true_r.
    unfold lower_char. destruct (isupper c) eqn:Hu; [|exact Hc].
    unfold isupper, between in Hu.
    apply andb_true_iff in Hu as [H1%N.leb_le H2%N.leb_le].
    apply negb_true_iff, N.eqb_neq. cbn. lia.
Defined.

Section Cased.

Context `{Unicode}.

(** [s.lower()], [s.upper()], [s.title()] *)
Definition lower (s : str) : str :=
  if isascii s then ascii_lower s else unicode_lower s.
Definition upper (s : str) : str :=
  if isascii s then ascii_upper s else unicode_upper s.
Definition title (s : str) : str :=
  if isascii s then ascii_title s else unicode_title s.

(** [\d] of [re] on [str] patterns: a decimal digit. *)
Definition isdecimal (c : char) : bool :=
  if (c <? 128)%N then isdigit c else unicode_isdecimal c.

(** [\w] of [re] on [str] patterns: letters, digits and the underscore. *)
Definition isword (c : char) : bool :=
  if (c <? 128)%N then isalpha c || isdigit c || (c =? 95)%N
  else unicode_isalnum c.

End Cased.

(** [s.lstrip()], [s.rstrip()], [s.strip()] *)
Fixpoint lstrip (s : str) : str :=
  match s with
  | "" => ""
  | Str c s' => if isspace c then lstrip s' else s
  end.

Fixpoint rstrip (s : str) : str :=
  match s with
  | "" => ""
  | Str c s' =>
      match rstrip s' with
      | "" => if isspace c then "" else Str c ""
      | r => Str c r
      end
  end.

Definition strip (s : str) : str := rstrip (lstrip s).

(** Truthiness of a [str]: [not s] holds exactly for the empty string. *)
Definition falsy (s : str) : bool :=
  match s with "" => true | _ => false end.

(** [a or b] on strings *)
Definition or (a b : str) : str := if falsy a then b else a.

(** [sub in t] *)
Fixpoint contains (sub t : str) : bool :=
  if prefix sub t then true
  else match t with
       | "" => false
       | Str _ t' => contains sub t'
       end.

(** [s.split(sep)] for a one-character separator: never an empty list. *)
Fixpoint split (sep : char) (s : str) : list str :=
  match s with
  | "" => [""]
  | Str c s' =>
      match split sep s' with
      | [] => [Str c ""]
      | w :: ws => if (c =? sep)%N then "" :: w :: ws else Str c w :: ws
      end
  end.

(** [s.split()] with no argument: the maximal runs of non-space
    characters. *)
Fixpoint split_ws (s : str) : list str :=
  match s with
  | "" => []
  | Str c s' =>
      if isspace c then split_ws s'
      else match split_ws s' with
           | w :: ws =>
               if (match s' with Str d _ => isspace d | "" => true end)
               then Str c "" :: w :: ws
               else Str c w :: ws
           | [] => [Str c ""]
           end
  end.

(** [s.replace(old, new)] for a non-empty [old]: left to right, matches
    do not overlap. *)
Fixpoint replace_go (old new : str) (skip : nat) (s : str) : str :=
  match s with
  | "" => ""
  | Str c s' =>
      match skip with
      | S k => replace_go old new k s'
      | O =>
          if prefix old s
          then add new (replace_go old new (len old - 1) s')
          else Str c (replace_go old new 0 s')
      end
  end.
Definition replace (old new s : str) : str := replace_go old new 0 s.

End Py.

Infix "+:+" := Py.add (at level 60, right associativity) : str_scope.

(** ** The fragment of [re] the program uses

    Python's [re] is a backtracking matcher: alternatives are tried left to
    right, a repetition is greedy and gives characters back one at a time,
    and [search] returns the match that starts leftmost.  Every repetition
    in the program's patterns is over a character class, so [Rep] is a
    class repetition [[...]{lo,hi}]. *)

Module Re.

Inductive regex : Type :=
| Lit (s : str)                                      (* literal text *)
| Cls (p : char -> bool)                             (* [...] *)
| Seq (r1 r2 : regex)                                (* r1 r2 *)
| Alt (r1 r2 : regex)                                (* r1|r2 *)
| Rep (p : char -> bool) (lo : nat) (hi : option nat) (* [...]{lo,hi} *)
| Opt (r : regex)                                    (* (?:r)? *)
| Grp (r : regex)                                    (* (r), capturing *)
| Bound (w : char -> bool).                          (* \b, for the class \w *)

Definition star p := Rep p 0 None.
Definition plus p := Rep p 1 None.

Fixpoint seq (rs : list regex) : regex :=
  match rs with
  | [] => Lit ""
  | [r] => r
  | r :: rs' => Seq r (seq rs')
  end.

Fixpoint alt (rs : list regex) : regex :=
  match rs with
  | [] => Cls (fun _ => false)
  | [r] => r
  | r :: rs' => Alt r (alt rs')
  end.

(** A position in the subject: the character before it (for [\b]) and
    the text from it on; [caps] are the groups closed so far. *)
Definition cont (A : Type) : Type :=
  option char -> str -> list str -> option A.

Fixpoint lit (l : str) (prev : option char) (s : str)
  : option (option char * str) :=
  match l with
  | "" => Some (prev, s)
  | Str a l' =>
      match s with
      | Str b s' => if (a =? b)%N then lit l' (Some b) s' else None
      | "" => None
      end
  end.

(** The longest run of class characters, at most [hi] of them. *)
Fixpoint run (p : char -> bool) (hi : option nat) (s : str) : nat :=
  match hi with
  | Some O => O
  | _ =>
      match s with
      | Str c s' => if p c then S (run p (pred <$> hi) s') else O
      | "" => O
      end
  end.

(** The position [n] characters further on. *)
Fixpoint advance (n : nat) (prev : option char) (s : str)
  : option char * str :=
  match n, s with
  | S k, Str c s' => advance k (Some c) s'
  | _, _ => (prev, s)
  end.

(** Greedy repetition: try [n] characters, then [n-1], ... down to [lo]. *)
Fixpoint give_back {A} (k : cont A) (prev : option char) (s : str)
    (caps : list str) (lo n : nat) : option A :=
  match (let '(prev', s') := advance n prev s in k prev' s' caps) with
  | Some x => Some x
  | None =>
      match n with
      | O => None
      | S n' => if (n' <? lo)%nat then None else give_back k prev s caps lo n'
      end
  end.

Definition is_word (w : char -> bool) (c : option char) : bool :=
  match c with Some a => w a | None => false end.

Definition head (s : str) : option char :=
  match s with Str c _ => Some c | "" => None end.

Fixpoint exec {A} (r : regex) (prev : option char) (s : str)
    (caps : list str) (k : cont A) : option A :=
  match r with
  | Lit l =>
      match lit l prev s with
      | Some (prev', s') => k prev' s' caps
      | None => None
      end
  | Cls p =>
      match s with
      | Str c s' => if p c then k (Some c) s' caps else None
      | "" => None
      end
  | Seq r1 r2 =>
      exec r1 prev s caps (fun prev' s' caps' => exec r2 prev' s' caps' k)
  | Alt r1 r2 =>
      match exec r1 prev s caps k with
      | Some x => Some x
      | None => exec r2 prev s caps k
      end
  | Rep p lo hi =>
      let n := run p hi s in
      if (n <? lo)%nat then None else give_back k prev s caps lo n
  | Opt r' =>
      match exec r' prev s caps k with
      | Some x => Some x
      | None => k prev s caps
      end
  | Grp r' =>
      exec r' prev s caps (fun prev' s' caps' =>
        k prev' s'
          (caps' ++ [Py.take (Py.len s - Py.len s') s]))
  | Bound w =>
      if xorb (is_word w prev) (is_word w (head s)) then k prev s caps
      else None
  end.

(** A match: where it starts, the position after it, and its groups. *)
Record found : Type := Found {
  start : nat;
  after_prev : option char;
  after : str;
  groups : list str
}.

Definition match_here (r : regex) (prev : option char) (s : str)
  : option (option char * str * list str) :=
  exec r prev s [] (fun prev' s' caps => Some (prev', s', caps)).

(** [re.search], continued from a position inside the subject. *)
Fixpoint search_from (r : regex) (i : nat) (prev : option char) (s : str)
  : option found :=
  match match_here r prev s with
  | Some (prev', s', caps) => Some (Found i prev' s' caps)
  | None =>
      match s with
      | "" => None
      | Str c s' => search_from r (S i) (Some c) s'
      end
  end.

(** [re.search(r, s)] *)
Definition search (r : regex) (s : str) : option found :=
  search_from r 0 None s.

(** [re.split(r, s)] for a pattern without groups whose matches are never
    empty: the text between successive leftmost matches.  Each round
    removes at least one character, so [len s] rounds after the first are
    enough. *)
Fixpoint split_go (r : regex) (fuel : nat) (prev : option char) (s : str)
  : list str :=
  match search_from r 0 prev s with
  | None => [s]
  | Some m =>
      match fuel with
      | O => [s]
      | S fuel' =>
          Py.take (start m) s :: split_go r fuel' (after_prev m) (after m)
      end
  end.

Definition split (r : regex) (s : str) : list str :=
  split_go r (Py.len s) None s.

End Re.

(** ** Data model: one row of the nine-column schema *)

Record Row : Type := mkRow {
  Name : str;
  Website : str;
  HQ : str;
  Category : str;
  Fit : str;            (* column "Fit (Core/Stretch)" *)
  Notes : str;
  Source : str;
  Conference : str;
  Classification : str
}.

Global Instance Row_eq_dec : EqDecision Row.
Proof. solve_decision. Defined.

(** * The program

    The program is run on a Unicode database [U]; a definition that
    consults none does not depend on it. *)

Section Program.

Context `{U : Py.Unicode}.

(** ** Utilities *)

(** [url.split("/")[2].lower()], and [url.lower()] on [IndexError]. *)
Definition domain_from_url (url : str) : str :=
  match Py.split (ch "/") url !! 2%nat with
  | Some d => Py.lower d
  | None => Py.lower url
  end.

(** The pattern [\s*(?:\||–|—|-|:)\s*] of [clean_result_name]. *)
Definition separator_pattern : Re.regex :=
  Re.seq [ Re.star Py.isspace;
           Re.alt [Re.Lit "|"; Re.Lit "–"; Re.Lit "—"; Re.Lit "-"; Re.Lit ":"];
           Re.star Py.isspace ].

(** [any] over the set gives the same answer in every iteration order, so
    the set literal is listed as written. *)
Definition marketing_words : list str :=
  [ "managed"; "services"; "service"; "cloud"; "it"; "support"; "cybersecurity";
    "security"; "hedge"; "fund"; "trading"; "infrastructure"; "platform";
    "managed services"; "consulting"; "implementation"; "solutions" ].

Definition looks_like_marketing (text : str) : bool :=
  let lower := Py.lower text in
  existsb (fun word => Py.contains word lower) marketing_words.

Definition clean_result_name (title domain_fallback : str) : str :=
  if Py.falsy title then domain_fallback
  else
    let parts := Re.split separator_pattern title in
    let parts := filter (fun p => p <> "") (Py.strip <$> parts) in
    match parts with
    | [] => Py.or (Py.strip title) domain_fallback
    | base :: _ =>
        let brand := if (1 <? length parts)%nat then List.last parts "" else "" in
        if negb (Py.falsy brand)
           && (length (Py.split_ws brand) <=? 6)%nat
           && negb (looks_like_marketing brand)
        then brand
        else if negb (Py.falsy brand)
                && looks_like_marketing base
                && negb (looks_like_marketing brand)
        then brand
        else Py.or base domain_fallback
    end.

(** ** Category classifier *)

Definition FINANCE_KEYWORDS : list str :=
  [ "hedge fund"; "alternative investment"; "asset management";
    "broker-dealer"; "broker dealer"; "investment manager";
    "private equity"; "family office"; "trading firm"; "proprietary trading" ].

Definition MSP_KEYWORDS : list str :=
  [ "managed services"; "managed it"; "outsourced"; "24x7 support";
    "24/7 support"; "service level agreement"; "sla"; "help desk"; "monitoring" ].

Definition MARKET_DATA_KEYWORDS : list str :=
  [ "market data"; "market-data"; "data feeds"; "entitlements";
    "exchange reporting"; "vendor management"; "dacs"; "inventory" ].

Definition TRADING_INFRA_KEYWORDS : list str :=
  [ "trading infrastructure"; "low latency"; "low-latency"; "colocation";
    "proximity hosting"; "exchange connectivity"; "fix connectivity" ].

Definition OMS_EMS_KEYWORDS : list str :=
  [ "oms"; "order management system"; "ems"; "execution management system";
    "trading platform implementation"; "trading system implementation";
    "fix onboarding" ].

Definition REG_OPS_KEYWORDS : list str :=
  [ "trade surveillance"; "best execution"; "best-execution";
    "outsourced compliance"; "regulatory reporting"; "finra"; "sec rule" ].

(** [sum(1 for k in keywords if k in text)] *)
Definition hits (keywords : list str) (text : str) : nat :=
  length (List.filter (fun k => Py.contains k text) keywords).

(** The [score] dictionary: a Python [dict] keeps its insertion order, and
    [max] breaks ties by it, so it is an association list. *)
Definition dict : Type := list (str * nat).

Definition get (d : dict) (key : str) : nat :=
  match List.find (fun kv => Py.eqb (fst kv) key) d with
  | Some kv => snd kv
  | None => 0
  end.

(** [d[key] = f(d[key])] on a key that is present: the entry keeps its
    place. *)
Fixpoint update (d : dict) (key : str) (f : nat -> nat) : dict :=
  match d with
  | [] => []
  | (k, v) :: d' =>
      if Py.eqb k key then (k, f v) :: d' else (k, v) :: update d' key f
  end.

(** [max(d, key=d.get)]: the first key, in iteration order, whose value is
    not exceeded by any other. *)
Fixpoint max_from (best : str * nat) (d : dict) : str :=
  match d with
  | [] => fst best
  | kv :: d' => max_from (if (snd best <? snd kv)%nat then kv else best) d'
  end.

Definition max_key (d : dict) : str :=
  match d with
  | [] => ""                      (* [max] of an empty dict raises *)
  | kv :: d' => max_from kv d'
  end.

Definition score0 : dict :=
  [ ("Financial MSP", 0); ("Trading Infra MSP", 0); ("Market Data Ops", 0);
    ("OMS/EMS & FIX", 0); ("RegOps / Surveillance", 0); ("Generic IT", 0) ]%nat.

Definition when (b : bool) (f : dict -> dict) (d : dict) : dict :=
  if b then f d else d.

(** The [score] dictionary after the six scoring rules; the six counts are
    the arguments and [fx] is the test ["fx" in text]. *)
Definition scores
    (finance_hits msp_hits trading_hits md_hits oms_hits reg_hits : nat)
    (fx : bool) : dict :=
  let score := score0 in
  (* Financial MSP *)
  let score :=
    if (0 <? finance_hits)%nat && (0 <? msp_hits)%nat
    then update score "Financial MSP" (fun v => v + (finance_hits * 3 + msp_hits * 2))
    else if (0 <? finance_hits)%nat
    then update score "Financial MSP" (fun v => v + finance_hits * 2)
    else if (0 <? msp_hits)%nat
    then update score "Financial MSP" (fun v => v + msp_hits)
    else score in
  (* Trading Infra MSP *)
  let score :=
    when (0 <? trading_hits)%nat
      (fun d => update d "Trading Infra MSP" (fun v => v + trading_hits * 3)) score in
  (* Market Data Ops *)
  let score :=
    when (0 <? md_hits)%nat
      (fun d => update d "Market Data Ops" (fun v => v + md_hits * 3)) score in
  (* OMS/EMS & FIX *)
  let score :=
    if (2 <=? oms_hits)%nat
    then update score "OMS/EMS & FIX" (fun v => v + oms_hits * 3)
    else if (oms_hits =? 1)%nat
            && ((0 <? trading_hits)%nat || (0 <? md_hits)%nat || fx)
    then update score "OMS/EMS & FIX" (fun v => v + 3)
    else score in
  (* RegOps / Surveillance *)
  let score :=
    when (0 <? reg_hits)%nat
      (fun d => update d "RegOps / Surveillance" (fun v => v + reg_hits * 3)) score in
  (* Generic IT *)
  when ((0 <? msp_hits)%nat && (finance_hits =? 0)%nat && (trading_hits =? 0)%nat
        && (md_hits =? 0)%nat && (oms_hits =? 0)%nat && (reg_hits =? 0)%nat)
    (fun d => update d "Generic IT" (fun _ => 1%nat)) score.

(** The rest of [classify_category]: the arg-max, the zero fallback and the
    final override. *)
Definition classify_hits
    (finance_hits msp_hits trading_hits md_hits oms_hits reg_hits : nat)
    (fx : bool) : str :=
  let score :=
    scores finance_hits msp_hits trading_hits md_hits oms_hits reg_hits fx in
  let cat := max_key score in
  let cat := if (get score cat =? 0)%nat then "Generic IT" else cat in
  let cat :=
    if (0 <? finance_hits)%nat && (0 <? msp_hits)%nat
       && (get score cat <=? get score "Financial MSP")%nat
    then "Financial MSP" else cat in
  cat.

Definition classify_category (text : str) : str :=
  classify_hits
    (hits FINANCE_KEYWORDS text) (hits MSP_KEYWORDS text)
    (hits TRADING_INFRA_KEYWORDS text) (hits MARKET_DATA_KEYWORDS text)
    (hits OMS_EMS_KEYWORDS text) (hits REG_OPS_KEYWORDS text)
    (Py.contains "fx" text).

(** ** Headquarters resolver *)

(** The class [[a-z ,]] *)
Definition az_space_comma (c : char) : bool :=
  Py.islower c || (c =? ch " ")%N || (c =? ch ",")%N.

(** The class [[a-z .]] *)
Definition az_space_dot (c : char) : bool :=
  Py.islower c || (c =? ch " ")%N || (c =? ch ".")%N.

(** The group [([a-z ,]+,\s*[a-z]{2})] shared by the three phrase patterns *)
Definition hq_location : Re.regex :=
  Re.Grp (Re.seq [ Re.plus az_space_comma; Re.Lit ",";
                   Re.star Py.isspace; Re.Rep Py.islower 2 (Some 2) ]).

Definition hq_patterns : list Re.regex :=
  [ Re.Seq (Re.Lit "headquartered in ") hq_location;
    Re.Seq (Re.Lit "based in ") hq_location;
    Re.Seq (Re.Lit "headquarters in ") hq_location ].

(** [m.group(n)], groups counted from 1 *)
Definition group (m : Re.found) (n : nat) : str :=
  default "" (Re.groups m !! (n - 1)%nat).

(** What the first loop of [guess_hq] returns on a match [m]. *)
Definition explicit_label (m : Re.found) : str :=
  let loc := Py.strip (group m 1) in
  let parts := Py.strip <$> Py.split (ch ",") loc in
  match parts with
  | [city; st] => Py.title city +:+ ", " +:+ Py.upper st
  | _ => Py.title loc
  end.

(** Strategy 1: the first pattern, in list order, that matches anywhere. *)
Fixpoint explicit_hq (patterns : list Re.regex) (t : str) : option str :=
  match patterns with
  | [] => None
  | pat :: rest =>
      match Re.search pat t with
      | Some m => Some (explicit_label m)
      | None => explicit_hq rest t
      end
  end.

Definition hub_map : list (list str * str) :=
  [ (["new york"; "nyc"], "New York, NY");
    (["brooklyn"], "Brooklyn, NY");
    (["jersey city"], "Jersey City, NJ");
    (["stamford"; "greenwich"; "norwalk"], "Fairfield County, CT");
    (["boston"], "Boston, MA");
    (["philadelphia"], "Philadelphia, PA");
    (["chicago"], "Chicago, IL");
    (["miami"; "orlando"; "tampa"], "Florida");
    (["dallas"; "austin"; "houston"], "Texas");
    (["san francisco"], "San Francisco, CA");
    (["los angeles"], "Los Angeles, CA");
    (["san jose"; "palo alto"; "silicon valley"], "Bay Area, CA");
    (["seattle"], "Seattle, WA");
    (["denver"; "boulder"], "Colorado");
    (["charlotte"], "Charlotte, NC");
    (["washington dc"; "washington d.c."; "washington, dc"], "Washington, DC");
    (["london"], "London, UK");
    (["toronto"], "Toronto, Canada");
    (["montreal"], "Montreal, Canada");
    (["vancouver"], "Vancouver, Canada");
    (["singapore"], "Singapore");
    (["hong kong"], "Hong Kong") ].

(** Strategy 2: the label of the first entry one of whose keys occurs. *)
Fixpoint hub_hq (hubs : list (list str * str)) (t : str)
  : option str :=
  match hubs with
  | [] => None
  | (keys, label) :: rest =>
      if existsb (fun k => Py.contains k t) keys then Some label
      else hub_hq rest t
  end.

Definition states : list str :=
  [ "al"; "ak"; "az"; "ar"; "ca"; "co"; "ct"; "de"; "fl"; "ga"; "hi"; "id";
    "il"; "in"; "ia"; "ks"; "ky"; "la"; "me"; "md"; "ma"; "mi"; "mn"; "ms";
    "mo"; "mt"; "ne"; "nv"; "nh"; "nj"; "nm"; "ny"; "nc"; "nd"; "oh"; "ok";
    "or"; "pa"; "ri"; "sc"; "sd"; "tn"; "tx"; "ut"; "vt"; "va"; "wa"; "wv";
    "wi"; "wy" ].

(** [\b([a-z][a-z .]{2,40}),\s*(al|ak|...|wy)(?:\s+\d{5})?\b] *)
Definition generic_us : Re.regex :=
  Re.seq [ Re.Bound Py.isword;
           Re.Grp (Re.Seq (Re.Cls Py.islower) (Re.Rep az_space_dot 2 (Some 40)));
           Re.Lit ",";
           Re.star Py.isspace;
           Re.Grp (Re.alt (Re.Lit <$> states));
           Re.Opt (Re.Seq (Re.plus Py.isspace) (Re.Rep Py.isdecimal 5 (Some 5)));
           Re.Bound Py.isword ].

(** Strategy 3 *)
Definition generic_hq (t : str) : option str :=
  match Re.search generic_us t with
  | Some m =>
      let city := Py.title (Py.strip (group m 1)) in
      let st := Py.upper (group m 2) in
      Some (city +:+ ", " +:+ st)
  | None => None
  end.

Definition guess_hq (text : str) : str :=
  let t := Py.lower text in
  match explicit_hq hq_patterns t with
  | Some label => label
  | None =>
      match hub_hq hub_map t with
      | Some label => label
      | None =>
          match generic_hq t with
          | Some label => label
          | None => ""
          end
      end
  end.

(** ** Fit and classification *)

Definition classify_fit (category : str) : str :=
  if Py.eqb category "Generic IT" then "Stretch" else "Core".

(** The set literal is only tested for membership. *)
Definition core_lanes : gset str :=
  {[ "Financial MSP"; "Trading Infra MSP"; "Market Data Ops";
     "OMS/EMS & FIX"; "RegOps / Surveillance" ]}.

Definition classify_firm (row : Row) : str :=
  if Py.eqb (Fit row) "Core" && bool_decide (Category row ∈ core_lanes)
  then "Potential acquisition target (near-term)"
  else "Pattern / Comp / Future Partner".

Definition normalize_hq (hq : str) : str :=
  if Py.falsy hq then ""
  else
    let hq := Py.strip hq in
    let hq := Py.replace "uk" "UK" (Py.replace "Uk" "UK" hq) in
    let parts := Py.strip <$> Py.split (ch ",") hq in
    match parts with
    | [city; state] => Py.title city +:+ ", " +:+ Py.upper state
    | _ => Py.title hq
    end.

(** ** Discovery runner (web search) *)

(** One result of the search provider; [r.get("url")] and [r.get("title")]
    are [None] when the key is absent. *)
Record SearchResult : Type := mkResult {
  title : option str;
  url : option str;
  description : str
}.

Definition skip_domains : list str :=
  [ "linkedin.com"; "indeed.com"; "glassdoor.com"; "facebook.com";
    "twitter.com"; "youtube.com"; "wikipedia.org" ].

(** The loop state of [run_search_discovery] *)
Record SearchState : Type := mkSearch {
  seen_domains : gset str;
  rows : list Row;
  total_rows : Z
}.

Definition search_start : SearchState := mkSearch ∅ [] 0.

(** [max_rows and n >= max_rows]: [None] and [0] are falsy. *)
Definition reached (max_rows : option Z) (n : Z) : bool :=
  match max_rows with
  | None => false
  | Some m => negb (m =? 0)%Z && (m <=? n)%Z
  end.

Definition search_row (q domain name snippet : str) : Row :=
  {| Name := Py.or name domain;
     Website := "https://" +:+ domain;
     HQ := ""; Category := ""; Fit := "";
     Notes := snippet;
     Source := "search:" +:+ q;
     Conference := ""; Classification := "" |}.

(** The inner [for r in results] loop; it ends early at the [break]. *)
Fixpoint add_results (max_rows : option Z) (q : str)
    (results : list SearchResult) (st : SearchState) : SearchState :=
  match results with
  | [] => st
  | r :: rest =>
      match url r with
      | None => add_results max_rows q rest st
      | Some u =>
          if Py.falsy u then add_results max_rows q rest st
          else
            let domain := domain_from_url u in
            let name := clean_result_name (default "" (title r)) domain in
            let snippet := description r in
            if existsb (fun skip => Py.contains skip domain) skip_domains
            then add_results max_rows q rest st
            else if bool_decide (domain ∈ seen_domains st)
            then add_results max_rows q rest st
            else
              let st' :=
                {| seen_domains := {[domain]} ∪ seen_domains st;
                   rows := rows st ++ [search_row q domain name snippet];
                   total_rows := total_rows st + 1 |} in
              if reached max_rows (total_rows st') then st'
              else add_results max_rows q rest st'
      end
  end.

(** The outer [for q in SEARCH_QUERIES] loop.  Each query comes with the
    outcome of its [search_web] call: [None] when the call raised, which
    the [except] clauses answer with [continue].  [queried] lists the
    queries handed to [search_web] so far. *)
Fixpoint search_loop (max_rows : option Z)
    (calls : list (str * option (list SearchResult)))
    (st : SearchState) (queried : list str) : SearchState * list str :=
  match calls with
  | [] => (st, queried)
  | (q, outcome) :: rest =>
      let queried := queried ++ [q] in
      match outcome with
      | None => search_loop max_rows rest st queried
      | Some results =>
          let st' := add_results max_rows q results st in
          if reached max_rows (total_rows st') then (st', queried)
          else search_loop max_rows rest st' queried
      end
  end.

(** The rows and the queries made at the end of [run_search_discovery]. *)
Definition run_search_discovery
    (calls : list (str * option (list SearchResult)))
    (max_rows : option Z) : list Row * list str :=
  let '(st, queried) := search_loop max_rows calls search_start [] in
  (rows st, queried).

(** ** Conference runner *)

(** A parser is a function of the markup and the conference name; [None]
    stands for a parser that raised. *)
Record ConferenceConfig : Type := mkConf {
  conf_name : str;
  conf_url : str;
  parser : str -> str -> option (list Row)
}.

(** The [try] block of one conference: the fetch, the parser and the
    [extend]; any exception leaves [all_rows] as it was. *)
Definition scrape_one (conf : ConferenceConfig) (fetched : option str)
    (acc : list Row) : list Row :=
  match fetched with
  | None => acc
  | Some html =>
      match parser conf html (conf_name conf) with
      | None => acc
      | Some found => acc ++ found
      end
  end.

(** The [for conf in conferences] loop; each conference comes with the
    outcome of [fetch_html] on its URL.  Both [break]s test the same
    condition, so they are one test after the [try].  [visited] lists the
    conferences tried so far. *)
Fixpoint conf_loop (max_rows : option Z)
    (calls : list (ConferenceConfig * option str))
    (all_rows : list Row) (visited : list str) : list Row * list str :=
  match calls with
  | [] => (all_rows, visited)
  | (conf, fetched) :: rest =>
      let all_rows := scrape_one conf fetched all_rows in
      let visited := visited ++ [conf_name conf] in
      if reached max_rows (Z.of_nat (length all_rows)) then (all_rows, visited)
      else conf_loop max_rows rest all_rows visited
  end.

(** [all_rows[:max_rows]] when [max_rows and len(all_rows) > max_rows];
    a negative bound counts from the end of the list. *)
Definition cap_rows (max_rows : option Z) (l : list Row) : list Row :=
  match max_rows with
  | None => l
  | Some m =>
      if negb (m =? 0)%Z && (m <? Z.of_nat (length l))%Z
      then if (0 <=? m)%Z then take (Z.to_nat m) l
           else take (length l - Z.to_nat (- m)) l
      else l
  end.

(** The rows and the conferences tried at the end of
    [run_conference_scrape]. *)
Definition run_conference_scrape
    (calls : list (ConferenceConfig * option str))
    (max_rows : option Z) : list Row * list str :=
  let '(all_rows, visited) := conf_loop max_rows calls [] [] in
  (cap_rows max_rows all_rows, visited).

(** ** Exhibitor adapters

    BeautifulSoup stays outside the model: an adapter is given what its
    selectors return on the page.  [urljoin] of [urllib.parse] is a
    parameter. *)

(** The first [<a>] of a cell: [link.get("href", "")] and
    [link.get("onclick", "")]. *)
Record Anchor : Type := mkAnchor {
  a_href : str;
  a_onclick : str
}.

(** A [<td>]: [get_text(strip=True)], [get_text(" ", strip=True)] and
    [find("a")]. *)
Record Cell : Type := mkCell {
  td_text : str;
  td_text_spaced : str;
  td_link : option Anchor
}.

(** A [div.sponsor] card: the text of [select_one("h3")], the [href] of
    [find("a", href=True)] and the text of [select_one(".description")],
    each [None] when the element is absent. *)
Record Card : Type := mkCard {
  card_heading : option str;
  card_href : option str;
  card_description : option str
}.

(** The row both adapters append. *)
Definition conf_row (name website notes conf_name : str) : Row :=
  {| Name := name;
     Website := website;
     HQ := ""; Category := ""; Fit := "";
     Notes := notes;
     Source := "conf:" +:+ conf_name;
     Conference := conf_name;
     Classification := "" |}.

Section Adapters.

Variable urljoin : str -> str -> str.

Definition fia_base : str := "https://s7.goeshow.com/fia/expo/2024/".

(** The profile URL of a name cell.  The third branch calls [re.search]
    with the pattern [ExhibitorPopup\\('([^']+)], whose first parenthesis
    is never closed: compiling it raises [re.error], so the branch raises
    and the result is [None]. *)
Definition fia_profile_url (link : option Anchor) : option str :=
  match link with
  | None => Some ""
  | Some a =>
      let href := a_href a in
      let onclick := a_onclick a in
      if negb (Py.falsy href) && Py.startswith "http" href
      then Some href
      else if negb (Py.falsy href) && Py.contains "profile.cfm" href
      then Some (urljoin fia_base href)
      else if negb (Py.falsy onclick) && Py.contains "profile.cfm" onclick
      then None
      else Some ""
  end.

(** The [for tr in table.select("tr")] loop of [parse_fia_expo]; each [tr]
    is the list of its [td]s. *)
Fixpoint fia_rows (trs : list (list Cell)) (conf_name : str)
  : option (list Row) :=
  match trs with
  | [] => Some []
  | tds :: rest =>
      match tds with
      | booth_cell :: name_cell :: _ =>
          let booth := td_text booth_cell in
          let name := td_text_spaced name_cell in
          match fia_profile_url (td_link name_cell) with
          | None => None
          | Some profile_url =>
              if Py.falsy name then fia_rows rest conf_name
              else
                cons (conf_row name profile_url
                        (if Py.falsy booth then "" else "Booth: " +:+ booth)
                        conf_name)
                  <$> fia_rows rest conf_name
          end
      | _ => fia_rows rest conf_name
      end
  end.

(** [parse_fia_expo]; [table] is [soup.select_one("table#exh_list tbody")]
    with its rows, [None] when the page has no such table. *)
Definition parse_fia_expo (table : option (list (list Cell)))
    (conf_name : str) : option (list Row) :=
  match table with
  | None => Some []
  | Some trs => fia_rows trs conf_name
  end.

(** [parse_tradetech_fx]; [cards] is [soup.select("div.sponsor")]. *)
Fixpoint parse_tradetech_fx (cards : list Card) (conf_name : str)
  : list Row :=
  match cards with
  | [] => []
  | c :: rest =>
      match card_heading c with
      | None => parse_tradetech_fx rest conf_name
      | Some name =>
          let url :=
            match card_href c with
            | Some href =>
                if Py.falsy href then ""
                else if Py.startswith "http" href then href
                else if Py.startswith "www" href then "https://" +:+ href
                else ""
            | None => ""
            end in
          let notes := default "" (card_description c) in
          conf_row name url notes conf_name
            :: parse_tradetech_fx rest conf_name
      end
  end.

(** What the selectors of the two adapters return on a page. *)
Variable fia_table : str -> option (list (list Cell)).
Variable sponsor_cards : str -> list Card.

(** The [conferences] list of [run_conference_scrape]. *)
Definition conferences : list ConferenceConfig :=
  [ mkConf "FIA_Expo_2024"
      "https://s7.goeshow.com/fia/expo/2024/sponsor_exhibitor_list.cfm"
      (fun html conf_name => parse_fia_expo (fia_table html) conf_name);
    mkConf "TradeTech_FX_USA_2025"
      "https://tradetechfxus.wbresearch.com/sponsors/2025"
      (fun html conf_name => Some (parse_tradetech_fx (sponsor_cards html) conf_name)) ].

(** [run_conference_scrape] on its own conference list, given the outcome
    of the fetch of each listing page. *)
Definition scrape_conferences (fetched : list (option str))
    (max_rows : option Z) : list Row * list str :=
  run_conference_scrape (zip conferences fetched) max_rows.

End Adapters.

(** ** Merger *)

(** The cells of a row, in the order of the schema. *)
Definition cells (r : Row) : list str :=
  [ Name r; Website r; HQ r; Category r; Fit r; Notes r; Source r;
    Conference r; Classification r ].

(** [pd.read_csv(path, dtype=str).fillna("")] on the rows of a file: a
    cell the reader takes for a missing value (pandas' markers: the empty
    cell, "NA", "N/A", "null", "NaN", ...) comes out empty, every other
    cell as written.  [csv.DictReader] hands over every cell as written. *)
Definition fillna (na_values : str -> bool) (cell : str) : str :=
  if na_values cell then "" else cell.

Definition read_csv (na_values : str -> bool) (file : list Row) : list Row :=
  (fun r =>
     mkRow (fillna na_values (Name r)) (fillna na_values (Website r))
       (fillna na_values (HQ r)) (fillna na_values (Category r))
       (fillna na_values (Fit r)) (fillna na_values (Notes r))
       (fillna na_values (Source r)) (fillna na_values (Conference r))
       (fillna na_values (Classification r))) <$> file.

(** The column [website_norm] of the pandas path, and the key [w] of the
    fallback path: [Website.strip().lower()]. *)
Definition website_norm (r : Row) : str := Py.lower (Py.strip (Website r)).

(** [df.drop_duplicates(subset=[column])]: the first row of every key
    stays, in place. *)
Fixpoint drop_duplicates_from (column : Row -> str) (seen : gset str)
    (df : list Row) : list Row :=
  match df with
  | [] => []
  | r :: rest =>
      if bool_decide (column r ∈ seen)
      then drop_duplicates_from column seen rest
      else r :: drop_duplicates_from column ({[column r]} ∪ seen) rest
  end.

Definition drop_duplicates (column : Row -> str) (df : list Row) : list Row :=
  drop_duplicates_from column ∅ df.

(** [merged.head(n)] / [all_rows[:n]] under the guard
    [max_total_rows is not None and max_total_rows > 0 and len > max_total_rows] *)
Definition truncate (max_total_rows : option Z) (l : list Row) : list Row :=
  match max_total_rows with
  | None => l
  | Some m =>
      if (0 <? m)%Z && (m <? Z.of_nat (length l))%Z
      then take (Z.to_nat m) l else l
  end.

(** The frames that exist; a source file that is missing is [None]. *)
Definition frames (search_csv conf_csv : option (list Row)) : list (list Row) :=
  omap id [search_csv; conf_csv].

(** The path taken when pandas is importable.  Its arguments are the
    frames, that is the rows after [read_csv]. *)
Definition merge_pandas (search_csv conf_csv : option (list Row))
    (max_total_rows : option Z) : option (list Row) :=
  match frames search_csv conf_csv with
  | [] => None                                   (* "No rows to merge." *)
  | fs =>
      let merged := concat fs in
      let with_site := filter (fun r => website_norm r <> "") merged in
      let without_site := filter (fun r => website_norm r = "") merged in
      let with_site := drop_duplicates website_norm with_site in
      let without_site := drop_duplicates Name without_site in
      let merged := with_site ++ without_site in
      Some (truncate max_total_rows merged)
  end.

(** [load(path)] of the fallback path, on the pair
    [(all_rows, websites_seen)]. *)
Fixpoint load_rows (file : list Row) (acc : list Row * gset str)
  : list Row * gset str :=
  match file with
  | [] => acc
  | r :: rest =>
      let w := website_norm r in
      if Py.falsy w then load_rows rest acc
      else if bool_decide (w ∈ acc.2) then load_rows rest acc
      else load_rows rest (acc.1 ++ [r], {[w]} ∪ acc.2)
  end.

Definition load (path : option (list Row)) (acc : list Row * gset str)
  : list Row * gset str :=
  match path with
  | None => acc                                  (* FileNotFoundError *)
  | Some file => load_rows file acc
  end.

(** The path taken when pandas is missing.  Its arguments are the rows
    as [csv.DictReader] yields them. *)
Definition merge_fallback (search_csv conf_csv : option (list Row))
    (max_total_rows : option Z) : option (list Row) :=
  let acc := load conf_csv (load search_csv ([], ∅)) in
  match acc.1 with
  | [] => None                                   (* "No rows to merge." *)
  | merged => Some (truncate max_total_rows merged)
  end.

(** [merge_raw_sources]; [pd] tells whether [import pandas] succeeded, and
    the two sources are the rows their reader hands over on that path.
    The result is the content of the output file, [None] when none is
    written. *)
Definition merge_raw_sources (pd : bool) (search_csv conf_csv : option (list Row))
    (max_total_rows : option Z) : option (list Row) :=
  if pd then merge_pandas search_csv conf_csv max_total_rows
  else merge_fallback search_csv conf_csv max_total_rows.

(** ** Enricher *)

Definition KNOWN_FINANCIAL_MSPS : gset str :=
  {[ "ceutechnologies.com"; "omegasystemscorp.com"; "thrivenextgen.com";
     "aag-it.com"; "silverlinetech.com"; "eze-castle.com" ]}.

Definition KNOWN_COMP_NAMES : gset str :=
  {[ "bloomberg"; "eurex"; "cme group" ]}.

(** [row[column] = v] on the columns the enricher writes *)
Definition set_HQ (v : str) (r : Row) : Row :=
  mkRow (Name r) (Website r) v (Category r) (Fit r) (Notes r) (Source r)
        (Conference r) (Classification r).
Definition set_Category (v : str) (r : Row) : Row :=
  mkRow (Name r) (Website r) (HQ r) v (Fit r) (Notes r) (Source r)
        (Conference r) (Classification r).
Definition set_Fit (v : str) (r : Row) : Row :=
  mkRow (Name r) (Website r) (HQ r) (Category r) v (Notes r) (Source r)
        (Conference r) (Classification r).
Definition set_Classification (v : str) (r : Row) : Row :=
  mkRow (Name r) (Website r) (HQ r) (Category r) (Fit r) (Notes r) (Source r)
        (Conference r) v.

Section Enrich.

(** [fetch_site_text]: the lower-cased page text of a URL, the empty
    string when the request failed. *)
Variable fetch_site_text : str -> str.

(** The body of the [for row in reader] loop: [None] is the [continue]
    of a row without a website, [Some] the row appended to [rows_out]. *)
Definition enrich_row (row : Row) : option Row :=
  let url := Py.strip (Website row) in
  if Py.falsy url then None
  else
    let domain := domain_from_url url in
    let text := fetch_site_text url in
    let category := classify_category text in
    let fit := classify_fit category in
    let hq := Py.strip (HQ row) in
    let hq :=
      if Py.falsy hq
      then let hq_guess := guess_hq text in
           if Py.falsy hq_guess then hq else hq_guess
      else hq in
    let '(category, fit) :=
      if bool_decide (domain ∈ KNOWN_FINANCIAL_MSPS)
      then ("Financial MSP", "Core")
      else (category, fit) in
    let row := set_Category category row in
    let row := set_Fit fit row in
    let row := set_HQ (normalize_hq hq) row in
    let name_l := Py.lower (Py.strip (Name row)) in
    let row :=
      if bool_decide (name_l ∈ KNOWN_COMP_NAMES)
      then set_Classification "Pattern / Comp / Future Partner" row
      else set_Classification (classify_firm row) row in
    Some row.

(** [rows_out] at the end of [enrich]. *)
Definition enrich (input : list Row) : list Row := omap enrich_row input.

End Enrich.

(** ** Orchestration *)

(** How [main] turns a row limit of the command line into the [max_rows]
    / [max_total_rows] it passes on:
    [None if (x is not None and x <= 0) else x]. *)
Definition cli_cap (arg : option Z) : option Z :=
  match arg with
  | Some x => if (x <=? 0)%Z then None else Some x
  | None => None
  end.

End Program.

(** ** Vocabulary of the properties *)

(** The keys of the [score] dictionary, in insertion order. *)
Definition categories : list str :=
  [ "Financial MSP"; "Trading Infra MSP"; "Market Data Ops";
    "OMS/EMS & FIX"; "RegOps / Surveillance"; "Generic IT" ].

(** The six categories as the specification spells them. *)
Definition spec_categories : list str :=
  [ "Financial MSP"; "Trading Infra MSP"; "Market Data Ops";
    "OMS/EMS & FIX"; "RegOps/Surveillance"; "Generic IT" ].

(** All the classifier reads off a text: the six phrase counts and the
    test ["fx" in text]. *)
Definition signals (text : str) : nat * nat * nat * nat * nat * nat * bool :=
  (hits FINANCE_KEYWORDS text, hits MSP_KEYWORDS text,
   hits TRADING_INFRA_KEYWORDS text, hits MARKET_DATA_KEYWORDS text,
   hits OMS_EMS_KEYWORDS text, hits REG_OPS_KEYWORDS text,
   Py.contains "fx" text).

(** Membership of a listed element *)
Ltac in_list :=
  repeat first [apply list_elem_of_here | apply list_elem_of_further].

(** The columns the enricher never writes. *)
Definition identity (r : Row) : str * str * str * str * str :=
  (Name r, Website r, Notes r, Source r, Conference r).

(** Every row the merger reads, in scanning order. *)
Definition scanned (search_csv conf_csv : option (list Row)) : list Row :=
  default [] search_csv ++ default [] conf_csv.

(** No cell of the row is a missing-value marker of the pandas reader
    (the empty cell apart, which it hands over empty). *)
Definition plain (na_values : str -> bool) (r : Row) : bool :=
  forallb (fun cell => negb (na_values cell) || Py.falsy cell) (cells r).

(** A unit of work succeeded: the search call returned, respectively the
    page was fetched and its parser returned. *)
Definition search_ok (call : str * option (list SearchResult)) : Prop :=
  is_Some call.2.

Definition scraped (call : ConferenceConfig * option str) : option (list Row) :=
  call.2 ≫= fun html => parser call.1 html (conf_name call.1).

Definition conf_ok (call : ConferenceConfig * option str) : Prop :=
  is_Some (scraped call).

(** The first [m - n] elements of [l] under a row limit [m] of which [n]
    are used up; all of [l] without a limit. *)
Definition within {A} (max_rows : option Z) (n : Z) (l : list A) : list A :=
  match max_rows with
  | None => l
  | Some m => take (Z.to_nat (m - n)) l
  end.

(** The search loop is running: its counter is not negative and below the
    row limit, if there is one. *)
Definition running (max_rows : option Z) (st : SearchState) : Prop :=
  (0 <= total_rows st)%Z
  /\ forall m, max_rows = Some m -> (total_rows st < m)%Z.

(** The first entry filed under each key, in order. *)
Fixpoint first_per_domain (seen : gset str) (l : list (str * Row))
  : list (str * Row) :=
  match l with
  | [] => []
  | entry :: rest =>
      if bool_decide (entry.1 ∈ seen) then first_per_domain seen rest
      else entry :: first_per_domain ({[entry.1]} ∪ seen) rest
  end.

(** The six scores in closed form. *)
Definition financial_score (finance_hits msp_hits : nat) : nat :=
  if (0 <? finance_hits)%nat && (0 <? msp_hits)%nat
  then finance_hits * 3 + msp_hits * 2
  else if (0 <? finance_hits)%nat then finance_hits * 2
  else msp_hits.

Definition oms_score (oms_hits trading_hits md_hits : nat) (fx : bool) : nat :=
  if (2 <=? oms_hits)%nat then oms_hits * 3
  else if (oms_hits =? 1)%nat
          && ((0 <? trading_hits)%nat || (0 <? md_hits)%nat || fx)
  then 3 else 0.

Definition generic_score
    (finance_hits msp_hits trading_hits md_hits oms_hits reg_hits : nat) : nat :=
  if (0 <? msp_hits)%nat && (finance_hits =? 0)%nat && (trading_hits =? 0)%nat
     && (md_hits =? 0)%nat && (oms_hits =? 0)%nat && (reg_hits =? 0)%nat
  then 1 else 0.

(** One of the five separators of the name cleaner: the bar, the en dash,
    the em dash, the hyphen, the colon. *)
Definition separator (c : char) : bool :=
  (ch "|" =? c)%N || (ch "–" =? c)%N || (ch "—" =? c)%N
  || (ch "-" =? c)%N || (ch ":" =? c)%N.

(** No character of [s] is a separator. *)
Definition no_separator (s : str) : bool :=
  Py.all_chars (fun c => negb (separator c)) s.

(** Case analysis on the comparisons the arg-max makes over a dictionary
    with the six keys. *)
Ltac max_cases :=
  cbn -[Nat.ltb Nat.leb Nat.eqb];
  repeat (match goal with
          | |- context [(?x <? ?y)%nat] =>
              is_var x; is_var y; destruct (Nat.ltb_spec x y)
          | |- context [(?x <=? ?y)%nat] =>
              is_var x; is_var y; destruct (Nat.leb_spec x y)
          | |- context [(?x =? 0)%nat] =>
              is_var x; destruct (Nat.eqb_spec x 0)
          end; cbn -[Nat.ltb Nat.leb Nat.eqb]).

Section Vocabulary.

Context `{U : Py.Unicode}.

(** What [merge_raw_sources] writes, on either path: the rows that have a
    website, first of each normalized website, and then, on the pandas path
    only, the rows without a website, first of each [Name]; the whole capped
    by [max_total_rows]. *)
Definition merged_rows (pd : bool) (all : list Row) : list Row :=
  drop_duplicates website_norm (filter (fun r => website_norm r <> "") all)
  ++ (if pd
      then drop_duplicates Name (filter (fun r => website_norm r = "") all)
      else []).

(** What a search result offers under the query [q]: its domain and the
    row filed under it; nothing when the result has no URL or its domain
    contains a skipped site. *)
Definition offered_row (q : str) (r : SearchResult) : option (str * Row) :=
  match url r with
  | None => None
  | Some u =>
      if Py.falsy u then None
      else
        let domain := domain_from_url u in
        if existsb (fun skip => Py.contains skip domain) skip_domains
        then None
        else Some (domain,
                   search_row q domain
                     (clean_result_name (default "" (title r)) domain)
                     (description r))
  end.

(** What a query offers: the offers of its results, in order; nothing
    when the call failed. *)
Definition offered (call : str * option (list SearchResult))
  : list (str * Row) :=
  match call.2 with
  | Some results => omap (offered_row call.1) results
  | None => []
  end.

(** What holds of the state of the search loop at every step, [queries]
    being the queries made so far: the counter is the number of rows, every
    row was built by [search_row] for one of the queries and a seen domain
    that contains no skipped site, and no two rows share a website. *)
Definition search_inv (queries : list str) (st : SearchState) : Prop :=
  total_rows st = Z.of_nat (length (rows st))
  /\ (forall row, row ∈ rows st ->
        exists q domain name snippet,
          row = search_row q domain name snippet
          /\ q ∈ queries
          /\ domain ∈ seen_domains st
          /\ existsb (fun skip => Py.contains skip domain) skip_domains = false)
  /\ NoDup (Website <$> rows st).

End Vocabulary.

(** * Properties *)

Section Claims.

Context `{U : Py.Unicode}.

(** ** Name cleaner *)

(** C7: for the title "NextGen IT Services For Hedge Funds | Managed IT
    Services" and any fallback domain the name cleaner returns the first
    segment, "NextGen IT Services For Hedge Funds": the title splits into
    exactly these two segments and both look like marketing, so neither
    rule that prefers the brand fires. *)
Theorem clean_result_name_nextgen (domain_fallback : str) :
  let title := "NextGen IT Services For Hedge Funds | Managed IT Services" in
  Re.split separator_pattern title
    = ["NextGen IT Services For Hedge Funds"; "Managed IT Services"]
  /\ looks_like_marketing "NextGen IT Services For Hedge Funds" = true
  /\ looks_like_marketing "Managed IT Services" = true
  /\ clean_result_name title domain_fallback
     = "NextGen IT Services For Hedge Funds".
Proof. repeat split; vm_compute; reflexivity. Qed.

(** ** Category classifier *)

Lemma update_keys (d : dict) key f : (update d key f).*1 = d.*1.
Proof.
  induction d as [|[k v] d IH]; [done|].
  cbn [update]. destruct (Py.eqb k key); rewrite !fmap_cons; [done|].
  by rewrite IH.
Qed.

Lemma max_from_keys (d : dict) best :
  max_from best d ∈ best.1 :: d.*1.
Proof.
  revert best. induction d as [|kv d IH]; intros best; simpl.
  - apply list_elem_of_here.
  - specialize (IH (if (best.2 <? kv.2)%nat then kv else best)).
    destruct (best.2 <? kv.2)%nat.
    + by apply list_elem_of_further.
    + apply elem_of_cons in IH as [->|IH]; [apply list_elem_of_here|].
      by do 2 apply list_elem_of_further.
Qed.

Lemma max_key_keys (d : dict) : d <> [] -> max_key d ∈ d.*1.
Proof. destruct d as [|kv d]; [done|]. intros _. apply max_from_keys. Qed.

Lemma scores_keys f m t d o r fx : (scores f m t d o r fx).*1 = categories.
Proof.
  unfold scores, when.
  repeat match goal with
         | |- context [if ?b then _ else _] => destruct b
         end;
    rewrite ?update_keys; reflexivity.
Qed.

Lemma classify_hits_categories f m t d o r fx :
  classify_hits f m t d o r fx ∈ categories.
Proof.
  unfold classify_hits.
  assert (max_key (scores f m t d o r fx) ∈ categories) as Hmax.
  { rewrite <- (scores_keys f m t d o r fx). apply max_key_keys.
    intros E. pose proof (scores_keys f m t d o r fx) as K.
    rewrite E in K. discriminate K. }
  repeat match goal with
         | |- context [if ?b then _ else _] => destruct b
         end; first [exact Hmax | unfold categories; in_list].
Qed.

(** C6: the category classifier is a total function of the text.  Its
    value is always one of the six keys of the score dictionary (Financial
    MSP, Trading Infra MSP, Market Data Ops, OMS/EMS & FIX, RegOps /
    Surveillance, Generic IT), hence never empty; and it depends on the
    text through the six phrase counts and the "fx" test alone, so that
    identical texts, and any two texts with the same counts, get the same
    category. *)
Theorem classify_category_total_pure :
  (forall text : str,
      classify_category text ∈ categories /\ classify_category text <> "")
  /\ (forall text1 text2 : str,
         signals text1 = signals text2 ->
         classify_category text1 = classify_category text2).
Proof.
  split.
  - intros text. pose proof (classify_hits_categories
      (hits FINANCE_KEYWORDS text) (hits MSP_KEYWORDS text)
      (hits TRADING_INFRA_KEYWORDS text) (hits MARKET_DATA_KEYWORDS text)
      (hits OMS_EMS_KEYWORDS text) (hits REG_OPS_KEYWORDS text)
      (Py.contains "fx" text)) as H.
    fold (classify_category text) in H. split; [done|].
    intros E. rewrite E in H. unfold categories in H.
    repeat (apply elem_of_cons in H as [H|H]; [discriminate H|]).
    by apply elem_of_nil in H.
  - intros text1 text2 E. unfold signals in E. unfold classify_category.
    injection E as -> -> -> -> -> -> ->. reflexivity.
Qed.

(** The shape of the score dictionary: the six keys in order, Generic IT
    scoring at most 1, and scoring 1 only next to a positive Financial MSP
    score. *)
Lemma scores_shape f m t d o r fx :
  exists a b c e g z : nat,
    scores f m t d o r fx
      = [ ("Financial MSP", a); ("Trading Infra MSP", b); ("Market Data Ops", c);
          ("OMS/EMS & FIX", e); ("RegOps / Surveillance", g); ("Generic IT", z) ]
    /\ (z = 0 \/ (z = 1 /\ 1 <= a))%nat.
Proof.
  unfold scores, when, score0.
  destruct (0 <? f)%nat eqn:Hf, (0 <? m)%nat eqn:Hm; cbn [andb];
    repeat match goal with
           | |- context [if ?b then _ else _] => destruct b eqn:?
           end; cbn;
    do 6 eexists; (split; [reflexivity|]);
    first [ by left
          | right; split; [reflexivity|];
            apply Nat.ltb_lt in Hm; lia
          | exfalso; rewrite ?andb_true_iff, ?Nat.eqb_eq, ?Nat.ltb_lt in *; lia ].
Qed.

(** The arg-max is the first entry, or a later one that scores strictly
    more than the first. *)
Lemma max_from_gt (d : dict) best :
  max_from best d = best.1
  \/ exists kv, kv ∈ d /\ max_from best d = kv.1 /\ (best.2 < kv.2)%nat.
Proof.
  revert best. induction d as [|kv d IH]; intros best; cbn [max_from].
  - by left.
  - destruct (best.2 <? kv.2)%nat eqn:Hlt.
    + apply Nat.ltb_lt in Hlt. right.
      destruct (IH kv) as [E | (kv' & Hin & E & Hlt')].
      * exists kv. split; [apply list_elem_of_here | done].
      * exists kv'. split; [by apply list_elem_of_further |]. split; [done | lia].
    + destruct (IH best) as [E | (kv' & Hin & E & Hlt')]; [by left|].
      right. exists kv'. split; [by apply list_elem_of_further | done].
Qed.

(** The arg-max never lands on Generic IT: that category is only ever
    chosen by the zero fallback. *)
Lemma max_key_not_generic f m t d o r fx :
  max_key (scores f m t d o r fx) <> "Generic IT".
Proof.
  destruct (scores_shape f m t d o r fx)
    as (a & b & c & e & g & z & -> & Hz).
  cbn [max_key]. intros E.
  destruct (max_from_gt
    [ ("Trading Infra MSP", b); ("Market Data Ops", c); ("OMS/EMS & FIX", e);
      ("RegOps / Surveillance", g); ("Generic IT", z) ] ("Financial MSP", a))
    as [E' | (kv & Hin & E' & Hlt)]; rewrite E in E'.
  - discriminate E'.
  - repeat (apply elem_of_cons in Hin as [-> | Hin]; [try discriminate E'|]).
    + cbn in Hlt. lia.
    + by apply elem_of_nil in Hin.
Qed.

(** C10: when at least one MSP phrase occurs in the text and no phrase of
    the finance, trading-infrastructure, market-data, OMS/EMS or reg-ops
    lexicons does, the classifier returns "Financial MSP" (so not "Generic
    IT"): Financial MSP scores [msp_hits >= 1], Generic IT scores 1, every
    other category 0, and the arg-max keeps the first maximum. *)
Theorem msp_only_is_financial_msp (text : str) :
  (0 < hits MSP_KEYWORDS text)%nat ->
  hits FINANCE_KEYWORDS text = 0%nat ->
  hits TRADING_INFRA_KEYWORDS text = 0%nat ->
  hits MARKET_DATA_KEYWORDS text = 0%nat ->
  hits OMS_EMS_KEYWORDS text = 0%nat ->
  hits REG_OPS_KEYWORDS text = 0%nat ->
  let score := scores 0 (hits MSP_KEYWORDS text) 0 0 0 0 (Py.contains "fx" text) in
  get score "Financial MSP" = hits MSP_KEYWORDS text
  /\ get score "Generic IT" = 1%nat
  /\ max_key score = "Financial MSP"
  /\ classify_category text = "Financial MSP"
  /\ classify_category text <> "Generic IT".
Proof.
  intros Hm Hf Ht Hd Ho Hr. unfold classify_category.
  rewrite Hf, Ht, Hd, Ho, Hr.
  destruct (hits MSP_KEYWORDS text) as [|n]; [lia|].
  assert (classify_hits 0 (S n) 0 0 0 0 (Py.contains "fx" text)
          = "Financial MSP") as E by reflexivity.
  rewrite E. repeat split; try reflexivity. discriminate.
Qed.

(** ** Enricher *)

Section EnrichProperties.

Variable fetch_site_text : str -> str.

Lemma enrich_row_skips (row : Row) :
  Py.strip (Website row) = "" -> enrich_row fetch_site_text row = None.
Proof. intros E. unfold enrich_row. by rewrite E. Qed.

Lemma enrich_row_keeps (row : Row) :
  Py.strip (Website row) <> "" ->
  exists row', enrich_row fetch_site_text row = Some row'
               /\ identity row' = identity row.
Proof.
  intros Hne. unfold enrich_row.
  destruct (Py.strip (Website row)) as [|c u] eqn:E; [done|].
  cbn [Py.falsy].
  repeat match goal with
         | |- context [if ?b then _ else _] => destruct b
         end; eexists; split; reflexivity.
Qed.

(** C2, as the code has it: the enricher skips every row whose trimmed
    website is empty and outputs exactly one enriched row for every other
    input row, in input order, with the name, website, notes, source and
    conference columns unchanged.  (The trimming is Python's: a website of
    white space only, a no-break space for instance, is empty.) *)
Theorem enrich_one_row_per_website (input : list Row) :
  identity <$> enrich fetch_site_text input
    = identity <$> filter (fun r => Py.strip (Website r) <> "") input
  /\ length (enrich fetch_site_text input)
     = length (filter (fun r => Py.strip (Website r) <> "") input).
Proof.
  assert (identity <$> enrich fetch_site_text input
          = identity <$> filter (fun r => Py.strip (Website r) <> "") input) as E.
  { induction input as [|row input IH]; [done|].
    unfold enrich in *. cbn [omap list_omap]. rewrite filter_cons.
    destruct (decide (Py.strip (Website row) <> "")) as [Hne|He].
    - destruct (enrich_row_keeps row Hne) as (row' & -> & Hid).
      rewrite !fmap_cons, Hid. by f_equal.
    - rewrite enrich_row_skips; [done|].
      by destruct (decide (Py.strip (Website row) = "")). }
  split; [exact E|].
  rewrite <- (length_fmap identity), E. by rewrite length_fmap.
Qed.

(** C5: a row whose website's domain is in [KNOWN_FINANCIAL_MSPS] is
    enriched (it is not skipped), and whatever text the fetch returns,
    the empty text included, its category is "Financial MSP" and its fit
    is "Core". *)
Theorem known_financial_msp_override (row : Row) :
  domain_from_url (Py.strip (Website row)) ∈ KNOWN_FINANCIAL_MSPS ->
  exists row',
    enrich_row fetch_site_text row = Some row'
    /\ Category row' = "Financial MSP"
    /\ Fit row' = "Core"
    /\ forall input, row ∈ input -> row' ∈ enrich fetch_site_text input.
Proof.
  intros Hin.
  assert (exists row', enrich_row fetch_site_text row = Some row'
            /\ Category row' = "Financial MSP" /\ Fit row' = "Core")
    as (row' & E & Hc & Hf).
  { unfold enrich_row.
    destruct (Py.strip (Website row)) as [|c u] eqn:Eu.
    - exfalso.
      assert (domain_from_url "" ∉ KNOWN_FINANCIAL_MSPS) as Hout
        by (apply (bool_decide_eq_false_1 (_ ∈ _)); by vm_compute).
      by apply Hout.
    - cbn [Py.falsy]. rewrite (bool_decide_eq_true_2 _ Hin).
      destruct (bool_decide (_ ∈ KNOWN_COMP_NAMES));
        eexists; repeat split; reflexivity. }
  exists row'. repeat split; [done..|].
  intros input Hrow. unfold enrich. apply list_elem_of_omap. eauto.
Qed.

End EnrichProperties.

(** ** Merger *)

Section DropDuplicates.

Variable column : Row -> str.

Lemma drop_duplicates_from_sublist seen df :
  drop_duplicates_from column seen df `sublist_of` df.
Proof.
  revert seen. induction df as [|r df IH]; intros seen; cbn.
  - constructor.
  - destruct (bool_decide (column r ∈ seen)).
    + apply sublist_cons. apply IH.
    + apply sublist_skip. apply IH.
Qed.

Lemma drop_duplicates_from_fresh seen df r :
  r ∈ drop_duplicates_from column seen df -> column r ∉ seen.
Proof.
  revert seen. induction df as [|x df IH]; intros seen; cbn.
  - intros H. by apply elem_of_nil in H.
  - destruct (bool_decide (column x ∈ seen)) eqn:Hx; [apply IH|].
    intros [-> | Hin]%elem_of_cons.
    + by apply bool_decide_eq_false_1 in Hx.
    + apply IH in Hin. intros Hr. apply Hin. by apply elem_of_union_r.
Qed.

(** No two rows that stay share a key. *)
Lemma drop_duplicates_from_NoDup seen df :
  NoDup (column <$> drop_duplicates_from column seen df).
Proof.
  revert seen. induction df as [|x df IH]; intros seen; cbn.
  - constructor.
  - destruct (bool_decide (column x ∈ seen)); [apply IH|].
    rewrite fmap_cons. apply NoDup_cons. split; [|apply IH].
    intros (y & Ey & Hin)%list_elem_of_fmap.
    apply drop_duplicates_from_fresh in Hin. apply Hin.
    rewrite <- Ey. by apply elem_of_union_l, elem_of_singleton.
Qed.

(** The first row of a key stays. *)
Lemma drop_duplicates_from_first seen l1 r l2 :
  column r ∉ seen ->
  (forall x, x ∈ l1 -> column x <> column r) ->
  r ∈ drop_duplicates_from column seen (l1 ++ r :: l2).
Proof.
  revert seen. induction l1 as [|x l1 IH]; intros seen Hr Hl1; cbn.
  - rewrite bool_decide_eq_false_2 by done. apply list_elem_of_here.
  - assert (column x <> column r) as Hx by (apply Hl1, list_elem_of_here).
    assert (forall y, y ∈ l1 -> column y <> column r) as Hl1'
        by (intros y Hy; by apply Hl1, list_elem_of_further).
    destruct (bool_decide (column x ∈ seen)); [by apply IH|].
    apply list_elem_of_further, IH; [|done].
    intros [E%elem_of_singleton | Hin]%elem_of_union; [by apply Hx | by apply Hr].
Qed.

End DropDuplicates.

Lemma truncate_prefix cap l : truncate cap l `prefix_of` l.
Proof.
  destruct cap as [m|]; cbn; [|done].
  destruct (_ && _); [apply prefix_take | done].
Qed.

(** The fallback loader appends, in order, rows of the file that carry a
    website. *)
Lemma load_rows_spec file acc :
  exists kept,
    (load_rows file acc).1 = acc.1 ++ kept
    /\ kept `sublist_of` file
    /\ Forall (fun r => website_norm r <> "") kept.
Proof.
  revert acc. induction file as [|r file IH]; intros acc; cbn [load_rows].
  - exists []. by rewrite app_nil_r.
  - destruct (Py.falsy (website_norm r)) eqn:Hw.
    { destruct (IH acc) as (kept & E & Hsub & Hall).
      exists kept. repeat split; [done | by apply sublist_cons | done]. }
    destruct (bool_decide (website_norm r ∈ acc.2)).
    { destruct (IH acc) as (kept & E & Hsub & Hall).
      exists kept. repeat split; [done | by apply sublist_cons | done]. }
    destruct (IH (acc.1 ++ [r], {[website_norm r]} ∪ acc.2))
      as (kept & E & Hsub & Hall).
    exists (r :: kept). repeat split.
    + rewrite E. cbn. by rewrite <- app_assoc.
    + by apply sublist_skip.
    + constructor; [|done]. intros E'. by rewrite E' in Hw.
Qed.

Lemma concat_frames search_csv conf_csv :
  concat (frames search_csv conf_csv) = scanned search_csv conf_csv.
Proof.
  destruct search_csv, conf_csv; cbn; by rewrite ?app_nil_r.
Qed.

Lemma merge_pandas_spec search_csv conf_csv cap out :
  merge_pandas search_csv conf_csv cap = Some out ->
  let all := scanned search_csv conf_csv in
  out = truncate cap
          (drop_duplicates website_norm (filter (fun r => website_norm r <> "") all)
           ++ drop_duplicates Name (filter (fun r => website_norm r = "") all)).
Proof.
  intros H. cbn zeta. rewrite <- (concat_frames search_csv conf_csv).
  unfold merge_pandas in H.
  destruct (frames search_csv conf_csv) as [|f fs]; [done|].
  by injection H as <-.
Qed.

Lemma merge_fallback_spec search_csv conf_csv cap out :
  merge_fallback search_csv conf_csv cap = Some out ->
  exists kept,
    out = truncate cap kept
    /\ kept `sublist_of` scanned search_csv conf_csv
    /\ Forall (fun r => website_norm r <> "") kept.
Proof.
  unfold merge_fallback, scanned. intros H.
  assert (exists kept,
    (load conf_csv (load search_csv ([], ∅))).1 = kept
    /\ kept `sublist_of` default [] search_csv ++ default [] conf_csv
    /\ Forall (fun r => website_norm r <> "") kept) as (kept & E & Hsub & Hall).
  { destruct search_csv as [s|], conf_csv as [c|]; cbn [default load].
    - destruct (load_rows_spec s ([], ∅)) as (k1 & E1 & S1 & A1).
      destruct (load_rows_spec c (load_rows s ([], ∅))) as (k2 & E2 & S2 & A2).
      exists (k1 ++ k2). rewrite E2, E1. cbn.
      repeat split; [by apply sublist_app | by apply Forall_app].
    - destruct (load_rows_spec s ([], ∅)) as (k1 & E1 & S1 & A1).
      exists k1. rewrite E1, app_nil_r. by cbn.
    - destruct (load_rows_spec c ([], ∅)) as (k2 & E2 & S2 & A2).
      exists k2. rewrite E2. by cbn.
    - exists []. by cbn. }
  exists kept. rewrite E in H.
  destruct kept as [|r kept]; [done|]. by injection H as <-.
Qed.

Lemma filter_all {A} (P : A -> Prop) `{!forall x, Decision (P x)} (l : list A) :
  Forall P l -> filter P l = l.
Proof.
  induction 1 as [|x l Hx _ IH]; [done|].
  rewrite filter_cons_True by done. by rewrite IH.
Qed.

Lemma filter_none {A} (P : A -> Prop) `{!forall x, Decision (P x)} (l : list A) :
  Forall (fun x => ~ P x) l -> filter P l = [].
Proof.
  induction 1 as [|x l Hx _ IH]; [done|].
  by rewrite filter_cons_False.
Qed.

Lemma Forall_sublist {A} (P : A -> Prop) (l k : list A) :
  l `sublist_of` k -> Forall P k -> Forall P l.
Proof.
  intros Hsub Hk. apply Forall_forall. intros x Hx.
  rewrite Forall_forall in Hk. apply Hk. by eapply elem_of_sublist.
Qed.

Lemma Forall_prefix {A} (P : A -> Prop) (l k : list A) :
  l `prefix_of` k -> Forall P k -> Forall P l.
Proof. intros [k' ->] H%Forall_app. tauto. Qed.

Lemma Forall_filter_self {A} (P : A -> Prop) `{!forall x, Decision (P x)}
    (l : list A) : Forall P (filter P l).
Proof. apply Forall_forall. by intros x [? _]%list_elem_of_filter. Qed.

Section TwoPaths.

Variable column : Row -> str.

(** Dropping duplicates from a concatenation: the keys that stayed from
    the first part are the keys seen when the second part starts. *)
Lemma drop_duplicates_from_app seen l1 l2 :
  drop_duplicates_from column seen (l1 ++ l2)
  = drop_duplicates_from column seen l1
    ++ drop_duplicates_from column
         (list_to_set (column <$> drop_duplicates_from column seen l1) ∪ seen) l2.
Proof.
  revert seen. induction l1 as [|x l1 IH]; intros seen; cbn.
  - f_equal. by rewrite union_empty_l_L.
  - destruct (bool_decide (column x ∈ seen)); [apply IH|].
    cbn. f_equal. rewrite IH. do 2 f_equal.
    by rewrite (assoc_L (∪)), (comm_L (∪) (list_to_set _)).
Qed.

End TwoPaths.

(** The fallback loader is the website de-duplication of the pandas path,
    run on the rows that have a website. *)
Lemma load_rows_drop_duplicates file acc :
  let kept := drop_duplicates_from website_norm acc.2
                (filter (fun r => website_norm r <> "") file) in
  load_rows file acc
  = (acc.1 ++ kept, list_to_set (website_norm <$> kept) ∪ acc.2).
Proof.
  revert acc. induction file as [|r file IH]; intros [rows seen];
    cbn [load_rows fst snd].
  - rewrite filter_nil. cbn. rewrite app_nil_r. f_equal.
    by rewrite union_empty_l_L.
  - rewrite filter_cons.
    destruct (decide (website_norm r <> "")) as [Hne|He].
    + destruct (website_norm r) as [|c w] eqn:Ew; [done|]. cbn [Py.falsy].
      cbn [drop_duplicates_from]. rewrite Ew.
      destruct (bool_decide (Str c w ∈ seen)); [by rewrite IH|].
      rewrite IH. cbn [fst snd]. rewrite fmap_cons, Ew, <- app_assoc. cbn [app].
      f_equal. by rewrite (assoc_L (∪)), (comm_L (∪) (list_to_set _)).
    + assert (website_norm r = "") as -> by (by destruct (decide (website_norm r = ""))).
      cbn [Py.falsy]. by rewrite IH.
Qed.

Lemma merge_fallback_drop_duplicates search_csv conf_csv :
  (load conf_csv (load search_csv ([], ∅))).1
  = drop_duplicates website_norm
      (filter (fun r => website_norm r <> "") (scanned search_csv conf_csv)).
Proof.
  unfold scanned, drop_duplicates. rewrite filter_app, drop_duplicates_from_app.
  destruct search_csv as [s|], conf_csv as [c|]; cbn [load default];
    rewrite ?load_rows_drop_duplicates; cbn; rewrite ?app_nil_r; try done.
  all: f_equal; by rewrite ?union_empty_r_L, ?union_empty_l_L.
Qed.

Lemma merge_raw_sources_spec pd search_csv conf_csv cap out :
  merge_raw_sources pd search_csv conf_csv cap = Some out ->
  out = truncate cap (merged_rows pd (scanned search_csv conf_csv)).
Proof.
  unfold merge_raw_sources, merged_rows. destruct pd.
  - apply merge_pandas_spec.
  - unfold merge_fallback. rewrite merge_fallback_drop_duplicates, app_nil_r.
    destruct (drop_duplicates _ _); [done|]. by intros [= <-].
Qed.

Lemma merged_rows_no_site pd all :
  filter (fun r => website_norm r = "") (merged_rows pd all)
  = if pd then drop_duplicates Name (filter (fun r => website_norm r = "") all)
    else [].
Proof.
  unfold merged_rows. rewrite filter_app.
  rewrite (filter_none _ (drop_duplicates website_norm _)).
  - destruct pd; [|done]. cbn [app]. apply filter_all.
    eapply Forall_sublist; [apply drop_duplicates_from_sublist|].
    apply Forall_filter_self.
  - eapply Forall_sublist; [apply drop_duplicates_from_sublist|].
    eapply Forall_impl; [apply Forall_filter_self|]. by intros r Hr E.
Qed.

(** On the fallback path no row without a website reaches the output. *)
Lemma fallback_skips_rows_without_website search_csv conf_csv cap out :
  merge_raw_sources false search_csv conf_csv cap = Some out ->
  filter (fun r => website_norm r = "") out = [].
Proof.
  intros ->%merge_raw_sources_spec.
  apply filter_none.
  eapply Forall_prefix; [apply truncate_prefix|].
  unfold merged_rows. rewrite app_nil_r.
  eapply Forall_sublist; [apply drop_duplicates_from_sublist|].
  eapply Forall_impl; [apply Forall_filter_self|]. by intros r Hr E.
Qed.

(** C1, as the code has it: on the pandas path the rows of the frames
    (the rows as [read_csv] hands them over) whose normalized website is
    empty are de-duplicated on the exact [Name], not on a normalized name.
    Without a cap, no two rows without a website in the output share a
    [Name], and the first scanned row of every such [Name] is in the
    output, so a row without a website whose [Name] is unique is never
    discarded. *)
Theorem empty_website_dedup_on_exact_name
    (search_csv conf_csv : option (list Row)) (out : list Row) :
  merge_raw_sources true search_csv conf_csv None = Some out ->
  NoDup (Name <$> filter (fun r => website_norm r = "") out)
  /\ forall l1 r l2,
       scanned search_csv conf_csv = l1 ++ r :: l2 ->
       website_norm r = "" ->
       (forall x, x ∈ l1 -> website_norm x = "" -> Name x <> Name r) ->
       r ∈ out.
Proof.
  intros ->%merge_raw_sources_spec. cbn [truncate]. split.
  - rewrite merged_rows_no_site. apply drop_duplicates_from_NoDup.
  - intros l1 r l2 -> Hr Hl1. unfold merged_rows.
    apply elem_of_app. right.
    rewrite filter_app, filter_cons_True by done.
    apply drop_duplicates_from_first; [apply not_elem_of_empty|].
    intros x [Hx Hin]%list_elem_of_filter. by apply Hl1.
Qed.

(** C3, as the code has it: the merge is a function of its inputs, and its
    output is a prefix (the whole, without a cap) of the rows with a
    website followed, on the pandas path, by the rows without one; each of
    the two groups keeps the order in which its rows were scanned. *)
Theorem merge_order (pd : bool) (search_csv conf_csv : option (list Row))
    (cap : option Z) (out : list Row) :
  merge_raw_sources pd search_csv conf_csv cap = Some out ->
  let all := scanned search_csv conf_csv in
  let with_site :=
    drop_duplicates website_norm (filter (fun r => website_norm r <> "") all) in
  let without_site :=
    if pd then drop_duplicates Name (filter (fun r => website_norm r = "") all)
    else [] in
  out `prefix_of` with_site ++ without_site
  /\ (cap = None -> out = with_site ++ without_site)
  /\ with_site `sublist_of` all
  /\ without_site `sublist_of` all
  /\ (forall out', merge_raw_sources pd search_csv conf_csv cap = Some out' ->
                   out' = out).
Proof.
  intros H. pose proof H as ->%merge_raw_sources_spec. cbn zeta.
  fold (merged_rows pd (scanned search_csv conf_csv)).
  repeat split.
  - apply truncate_prefix.
  - by intros ->.
  - etrans; [apply drop_duplicates_from_sublist | apply sublist_filter].
  - destruct pd; [|apply sublist_nil_l].
    etrans; [apply drop_duplicates_from_sublist | apply sublist_filter].
  - intros out' H'. rewrite H in H'. by injection H' as <-.
Qed.

(** C4, as the code has it: of two rows whose websites are
    "HTTPS://Example.com" and "https://example.com" (they differ in case
    only) the merger keeps exactly the first; when the second website is
    "https://example.com/" the keys differ by the trailing slash and both
    rows are kept.  All other columns are arbitrary, on either path. *)
Theorem website_key_is_trim_lowercase (pd : bool) (r1 r2 : Row) :
  Website r1 = "HTTPS://Example.com" ->
  (Website r2 = "https://example.com" ->
     merge_raw_sources pd (Some [r1]) (Some [r2]) None = Some [r1]
     /\ merge_raw_sources pd (Some [r1; r2]) None None = Some [r1])
  /\ (Website r2 = "https://example.com/" ->
     merge_raw_sources pd (Some [r1]) (Some [r2]) None = Some [r1; r2]
     /\ merge_raw_sources pd (Some [r1; r2]) None None = Some [r1; r2]).
Proof.
  destruct r1 as [n1 w1 h1 c1 f1 o1 s1 k1 l1], r2 as [n2 w2 h2 c2 f2 o2 s2 k2 l2].
  cbn [Website]. intros ->. split; intros ->; destruct pd; by vm_compute.
Qed.

(** ** Failure isolation in the two runners *)

Lemma search_loop_skips max_rows calls st queried queried' :
  (search_loop max_rows calls st queried).1
  = (search_loop max_rows (filter search_ok calls) st queried').1.
Proof.
  revert st queried queried'.
  induction calls as [|[q [results|]] calls IH]; intros st queried queried'.
  - done.
  - rewrite filter_cons_True by (by eexists). cbn [search_loop].
    destruct (reached _ _); [done | apply IH].
  - rewrite filter_cons_False by (by intros [? [=]]). cbn [search_loop]. apply IH.
Qed.

Lemma search_loop_queries calls st queried :
  (search_loop None calls st queried).2 = queried ++ calls.*1.
Proof.
  revert st queried.
  induction calls as [|[q [results|]] calls IH]; intros st queried;
    cbn [search_loop reached].
  - by rewrite app_nil_r.
  - rewrite IH, fmap_cons, <- app_assoc. done.
  - rewrite IH, fmap_cons, <- app_assoc. done.
Qed.

Lemma scrape_one_scraped conf fetched acc :
  scrape_one conf fetched acc = acc ++ default [] (scraped (conf, fetched)).
Proof.
  unfold scrape_one, scraped. cbn.
  destruct fetched as [html|]; cbn; [|by rewrite app_nil_r].
  destruct (parser conf html (conf_name conf)); cbn; by rewrite ?app_nil_r.
Qed.

Lemma conf_loop_skips max_rows calls acc visited visited' :
  reached max_rows (Z.of_nat (length acc)) = false ->
  (conf_loop max_rows calls acc visited).1
  = (conf_loop max_rows (filter conf_ok calls) acc visited').1.
Proof.
  revert acc visited visited'.
  induction calls as [|[conf fetched] calls IH]; intros acc visited visited' Hacc.
  - done.
  - destruct (scraped (conf, fetched)) as [found|] eqn:E.
    + rewrite filter_cons_True by (unfold conf_ok; rewrite E; by eexists).
      cbn [conf_loop].
      destruct (reached max_rows
                  (Z.of_nat (length (scrape_one conf fetched acc)))) eqn:Hr;
        [done | by apply IH].
    + rewrite filter_cons_False by (unfold conf_ok; rewrite E; by intros [? [=]]).
      cbn [conf_loop]. rewrite scrape_one_scraped, E. cbn [default].
      rewrite app_nil_r, Hacc. by apply IH.
Qed.

Lemma conf_loop_uncapped calls acc visited :
  conf_loop None calls acc visited
  = (acc ++ concat ((fun call => default [] (scraped call)) <$> calls),
     visited ++ ((fun call => conf_name call.1) <$> calls)).
Proof.
  revert acc visited.
  induction calls as [|[conf fetched] calls IH]; intros acc visited;
    cbn [conf_loop reached].
  - by rewrite !app_nil_r.
  - rewrite IH, scrape_one_scraped, !fmap_cons, <- !app_assoc. done.
Qed.

Lemma within_nil {A} max_rows n : within max_rows n ([] : list A) = [].
Proof. destruct max_rows; cbn; [apply take_nil | done]. Qed.

Lemma within_cons {A} max_rows n (x : A) l :
  (forall m, max_rows = Some m -> (n < m)%Z) ->
  within max_rows n (x :: l) = x :: within max_rows (n + 1) l.
Proof.
  destruct max_rows as [m|]; cbn; [|done]. intros H. specialize (H m eq_refl).
  replace (Z.to_nat (m - n)) with (S (Z.to_nat (m - (n + 1)))) by lia. done.
Qed.

Lemma within_reached {A} max_rows n (l : list A) :
  reached max_rows n = true -> within max_rows n l = [].
Proof.
  destruct max_rows as [m|]; cbn; [|done].
  intros [_ H%Z.leb_le]%andb_true_iff.
  replace (Z.to_nat (m - n)) with 0%nat by lia. done.
Qed.

Lemma within_app_reached {A} max_rows n (l1 l2 : list A) :
  reached max_rows (n + Z.of_nat (length (within max_rows n l1))) = true ->
  within max_rows n (l1 ++ l2) = within max_rows n l1.
Proof.
  destruct max_rows as [m|]; cbn; [|done].
  intros [_ H%Z.leb_le]%andb_true_iff. rewrite length_take in H.
  apply take_app_le. lia.
Qed.

Lemma within_app_room {A} max_rows n (l1 l2 : list A) :
  (forall m, max_rows = Some m -> (n + Z.of_nat (length l1) < m)%Z) ->
  within max_rows n (l1 ++ l2)
  = l1 ++ within max_rows (n + Z.of_nat (length l1)) l2.
Proof.
  destruct max_rows as [m|]; cbn; [|done]. intros H. specialize (H m eq_refl).
  rewrite take_app_ge by lia. do 2 f_equal. lia.
Qed.

Lemma running_step max_rows st n :
  running max_rows st ->
  (total_rows st <= n)%Z ->
  reached max_rows n = false ->
  (0 <= n)%Z /\ forall m, max_rows = Some m -> (n < m)%Z.
Proof.
  intros [H0 Hm] Hle Hr. split; [lia|]. intros m ->. specialize (Hm m eq_refl).
  cbn in Hr. apply andb_false_iff in Hr as [Hr|Hr].
  - apply negb_false_iff, Z.eqb_eq in Hr. lia.
  - by apply Z.leb_gt in Hr.
Qed.

Lemma first_per_domain_app seen (l1 l2 : list (str * Row)) :
  first_per_domain seen (l1 ++ l2)
  = first_per_domain seen l1
    ++ first_per_domain
         (list_to_set (first_per_domain seen l1).*1 ∪ seen) l2.
Proof.
  revert seen. induction l1 as [|x l1 IH]; intros seen; cbn.
  - f_equal. by rewrite union_empty_l_L.
  - destruct (bool_decide (x.1 ∈ seen)); [apply IH|].
    cbn. f_equal. rewrite IH. do 2 f_equal.
    by rewrite (assoc_L (∪)), (comm_L (∪) (list_to_set _)).
Qed.

Lemma add_results_step max_rows q r results st :
  add_results max_rows q (r :: results) st
  = match offered_row q r with
    | None => add_results max_rows q results st
    | Some (d, row) =>
        if bool_decide (d ∈ seen_domains st)
        then add_results max_rows q results st
        else
          let st' := {| seen_domains := {[d]} ∪ seen_domains st;
                        rows := rows st ++ [row];
                        total_rows := total_rows st + 1 |} in
          if reached max_rows (total_rows st') then st'
          else add_results max_rows q results st'
    end.
Proof.
  cbn [add_results]. unfold offered_row.
  destruct (url r) as [u|]; [|done].
  destruct (Py.falsy u); [done|].
  by destruct (existsb _ skip_domains).
Qed.

(** The inner loop of the search runner appends the offers of the
    results, first of each domain not seen before, as far as the row limit
    allows. *)
Lemma add_results_closed max_rows q results st :
  running max_rows st ->
  let news :=
    first_per_domain (seen_domains st) (omap (offered_row q) results) in
  let st' := add_results max_rows q results st in
  rows st' = rows st ++ (within max_rows (total_rows st) news).*2
  /\ total_rows st'
     = (total_rows st
        + Z.of_nat (length (within max_rows (total_rows st) news)))%Z
  /\ (reached max_rows (total_rows st') = false ->
      seen_domains st' = list_to_set news.*1 ∪ seen_domains st
      /\ within max_rows (total_rows st) news = news).
Proof.
  revert st. induction results as [|r results IH]; intros st Hrun; cbv zeta.
  - cbn [add_results omap list_omap first_per_domain].
    rewrite within_nil. cbn. rewrite app_nil_r, union_empty_l_L.
    split; [done|]. split; [lia | done].
  - rewrite add_results_step. cbn [omap list_omap].
    destruct (offered_row q r) as [[d row]|]; [|by apply IH].
    cbn [first_per_domain fst].
    destruct (bool_decide (d ∈ seen_domains st)); [by apply IH|].
    cbv zeta.
    set (st1 := {| seen_domains := {[d]} ∪ seen_domains st;
                   rows := rows st ++ [row];
                   total_rows := total_rows st + 1 |}).
    rewrite within_cons by apply Hrun.
    destruct (reached max_rows (total_rows st1)) eqn:Hr.
    + rewrite (within_reached _ _ _ Hr). cbn -[reached].
      split; [done|]. split; [lia|]. intros Hr'.
      change (total_rows st1) with (total_rows st + 1)%Z in Hr. congruence.
    + assert (running max_rows st1) as Hrun1.
      { apply (running_step max_rows st); [done | cbn; lia | done]. }
      destruct (IH st1 Hrun1) as (R & T & S). cbv zeta in R, T, S.
      change (total_rows st1) with (total_rows st + 1)%Z in R, T, S.
      change (rows st1) with (rows st ++ [row]) in R.
      change (seen_domains st1) with ({[d]} ∪ seen_domains st) in R, T, S.
      split; [|split].
      * rewrite R. by rewrite fmap_cons, <- app_assoc.
      * rewrite T. cbn [length]. lia.
      * intros Hr'. destruct (S Hr') as [Sseen Sfull].
        rewrite Sseen, Sfull. split; [|done].
        rewrite fmap_cons. cbn [list_to_set fst].
        by rewrite (assoc_L (∪)), (comm_L (∪) (list_to_set _)).
Qed.

(** The search loop ends with the offers of the successful queries,
    first of each domain, as far as the row limit allows. *)
Lemma search_loop_closed max_rows calls st queried :
  running max_rows st ->
  rows (search_loop max_rows calls st queried).1
  = rows st
    ++ (within max_rows (total_rows st)
          (first_per_domain (seen_domains st) (concat (offered <$> calls)))).*2.
Proof.
  revert st queried.
  induction calls as [|[q [results|]] calls IH]; intros st queried Hrun;
    cbn [search_loop fmap list_fmap concat].
  - cbn. by rewrite within_nil, app_nil_r.
  - unfold offered at 1. cbn [fst snd]. rewrite first_per_domain_app.
    destruct (add_results_closed max_rows q results st Hrun) as (R & T & S).
    cbv zeta in R, T, S.
    set (news := first_per_domain (seen_domains st)
                   (omap (offered_row q) results)) in *.
    set (st' := add_results max_rows q results st) in *.
    destruct (reached max_rows (total_rows st')) eqn:Hr.
    + cbn [fst]. rewrite R. do 2 f_equal. symmetry.
      apply within_app_reached. by rewrite <- T.
    + destruct (S eq_refl) as [Sseen Sfull]. rewrite Sfull in T.
      assert (running max_rows st') as Hrun'.
      { apply (running_step max_rows st); [done | lia | done]. }
      rewrite (IH st' _ Hrun'), R, Sfull, Sseen, <- app_assoc, <- fmap_app.
      do 2 f_equal. rewrite T. symmetry. apply within_app_room.
      rewrite <- T. apply Hrun'.
  - unfold offered at 1. cbn [fst snd app]. by apply IH.
Qed.

Lemma cap_rows_take m (l : list Row) :
  (0 < m)%Z -> cap_rows (Some m) l = take (Z.to_nat m) l.
Proof.
  intros Hm. cbn [cap_rows]. destruct (Z.eqb_spec m 0); [lia|]. cbn [negb andb].
  destruct (Z.ltb_spec m (Z.of_nat (length l))).
  - by destruct (Z.leb_spec 0 m); [|lia].
  - symmetry. apply take_ge. lia.
Qed.

(** Under a positive row limit the conference loop ends with rows whose
    first [m] are the first [m] rows of the successful conferences. *)
Lemma conf_loop_capped m calls acc visited :
  (0 < m)%Z ->
  (Z.of_nat (length acc) < m)%Z ->
  take (Z.to_nat m) (conf_loop (Some m) calls acc visited).1
  = take (Z.to_nat m)
      (acc ++ concat ((fun call => default [] (scraped call)) <$> calls)).
Proof.
  intros Hm. revert acc visited.
  induction calls as [|[conf fetched] calls IH]; intros acc visited Hacc;
    cbn [conf_loop fmap list_fmap concat].
  - by rewrite app_nil_r.
  - rewrite scrape_one_scraped.
    set (found := default [] (scraped (conf, fetched))).
    cbn [reached]. destruct (Z.eqb_spec m 0); [lia|]. cbn [negb andb].
    destruct (Z.leb_spec m (Z.of_nat (length (acc ++ found)))).
    + cbn [fst]. rewrite (app_assoc acc found). 
      by rewrite (take_app_le (acc ++ found)) by lia.
    + rewrite IH by done. by rewrite <- app_assoc.
Qed.

(** C9: a failed search call, fetch or parse does not stop the runner and
    adds no row, and every unit that succeeds contributes its rows.
    Search runner: without a row limit every query is handed to the
    provider, whatever failed before it, and the rows are the offers of
    the queries that succeeded, in order, first of each domain; under a
    positive limit [m] they are the first [m] of these; under any limit
    they are the rows of the run over the successful queries alone.
    Conference runner: without a limit every conference is tried and the
    rows are those of the conferences that were fetched and parsed, in
    order; under a positive limit [m] they are the first [m] of these;
    under a limit that is absent or not negative they are the rows of the
    run over the successful conferences alone.  A failed unit offers
    nothing. *)
Theorem failures_are_isolated :
  (forall calls,
      run_search_discovery calls None
      = ((first_per_domain ∅ (concat (offered <$> calls))).*2, calls.*1))
  /\ (forall calls m,
         (0 < m)%Z ->
         (run_search_discovery calls (Some m)).1
         = take (Z.to_nat m)
             ((first_per_domain ∅ (concat (offered <$> calls))).*2))
  /\ (forall calls max_rows,
         (run_search_discovery calls max_rows).1
         = (run_search_discovery (filter search_ok calls) max_rows).1)
  /\ (forall calls,
         run_conference_scrape calls None
         = (concat ((fun call => default [] (scraped call)) <$> calls),
            (fun call => conf_name call.1) <$> calls))
  /\ (forall calls m,
         (0 < m)%Z ->
         (run_conference_scrape calls (Some m)).1
         = take (Z.to_nat m)
             (concat ((fun call => default [] (scraped call)) <$> calls)))
  /\ (forall calls max_rows,
         (forall m, max_rows = Some m -> (0 <= m)%Z) ->
         (run_conference_scrape calls max_rows).1
         = (run_conference_scrape (filter conf_ok calls) max_rows).1)
  /\ (forall q, offered (q, None) = [])
  /\ (forall conf, scraped (conf, None) = None)
  /\ (forall conf html,
         parser conf html (conf_name conf) = None ->
         scraped (conf, Some html) = None).
Proof.
  assert (forall max_rows,
            (forall m, max_rows = Some m -> (0 < m)%Z) ->
            running max_rows search_start) as Hstart.
  { intros max_rows Hm. split; [done|]. intros m E. cbn. by apply Hm. }
  split; [|split; [|split; [|split; [|split; [|split]]]]].
  - intros calls. unfold run_search_discovery.
    pose proof (search_loop_closed None calls search_start []) as R.
    pose proof (search_loop_queries calls search_start []) as Q.
    destruct (search_loop None calls search_start []) as [st queried].
    cbn in R, Q. rewrite R, Q; [done|]. by apply Hstart.
  - intros calls m Hm. unfold run_search_discovery.
    pose proof (search_loop_closed (Some m) calls search_start []) as R.
    destruct (search_loop (Some m) calls search_start []) as [st queried].
    cbn in R. cbn [fst]. rewrite R.
    + by rewrite Z.sub_0_r, fmap_take.
    + apply Hstart. by intros ? [= <-].
  - intros calls max_rows. unfold run_search_discovery.
    pose proof (search_loop_skips max_rows calls search_start [] []) as E.
    destruct (search_loop max_rows calls _ _),
             (search_loop max_rows (filter _ calls) _ _).
    cbn in *. by rewrite E.
  - intros calls. unfold run_conference_scrape.
    by rewrite conf_loop_uncapped.
  - intros calls m Hm. unfold run_conference_scrape.
    pose proof (conf_loop_capped m calls [] [] Hm) as E.
    destruct (conf_loop (Some m) calls [] []) as [all_rows visited].
    cbn [fst] in *. rewrite cap_rows_take by done. apply E. cbn. lia.
  - intros calls max_rows Hcap. unfold run_conference_scrape.
    pose proof (conf_loop_skips max_rows calls [] [] []) as E.
    destruct (conf_loop max_rows calls _ _),
             (conf_loop max_rows (filter _ calls) _ _).
    cbn in *. rewrite E; [done|].
    destruct max_rows as [m|]; [|done]. cbn.
    specialize (Hcap m eq_refl). destruct (Z.eqb_spec m 0); [done|].
    cbn. apply Z.leb_gt. lia.
  - split; [done|]. split; [done|]. intros conf html E.
    unfold scraped. cbn. exact E.
Qed.

(** ** Headquarters resolver *)

Lemma append_cons x (a b : str) : Str x a +:+ b = Str x (a +:+ b).
Proof. reflexivity. Qed.

Lemma append_nil_l (b : str) : "" +:+ b = b.
Proof. reflexivity. Qed.

Lemma append_assoc (a b c : str) : (a +:+ b) +:+ c = a +:+ (b +:+ c).
Proof.
  induction a as [|x a IH]; [done|]. rewrite !append_cons. by rewrite IH.
Qed.

Lemma lit_app (l : str) prev rest :
  exists prev', Re.lit l prev (l +:+ rest) = Some (prev', rest).
Proof.
  revert prev. induction l as [|a l IH]; intros prev.
  - rewrite append_nil_l. by eexists.
  - rewrite append_cons. cbn [Re.lit]. rewrite N.eqb_refl. apply IH.
Qed.

Lemma advance_app (w : str) prev rest :
  exists prev', Re.advance (Py.len w) prev (w +:+ rest) = (prev', rest).
Proof.
  revert prev. induction w as [|a w IH]; intros prev.
  - rewrite append_nil_l. cbn. by eexists.
  - rewrite append_cons. cbn [Py.len Re.advance]. apply IH.
Qed.

Lemma run_ge p (w rest : str) :
  Py.all_chars p w = true -> Py.len w <= Re.run p None (w +:+ rest).
Proof.
  induction w as [|a w IH]; [cbn; lia|].
  cbn [Py.all_chars]. intros [Ha Hw]%andb_true_iff. specialize (IH Hw).
  rewrite append_cons. cbn [Re.run Py.len]. rewrite Ha. cbn. lia.
Qed.

(** A greedy repetition finds a match whenever some admissible count of
    characters leads to one. *)
Lemma give_back_complete {A} (k : Re.cont A) prev s caps lo n j :
  lo <= j <= n ->
  is_Some (let '(prev', s') := Re.advance j prev s in k prev' s' caps) ->
  is_Some (Re.give_back k prev s caps lo n).
Proof.
  intros [Hlo Hn] Hj. induction n as [|n IH]; cbn [Re.give_back].
  - assert (j = 0) as -> by lia.
    destruct (let '(prev', s') := Re.advance 0 prev s in k prev' s' caps); done.
  - destruct (let '(prev', s') := Re.advance (S n) prev s in k prev' s' caps)
      as [x|] eqn:E; [by eexists|].
    destruct (decide (j = S n)) as [->|Hne].
    { rewrite E in Hj. by destruct Hj. }
    destruct (n <? lo)%nat eqn:Hlt.
    { apply Nat.ltb_lt in Hlt. lia. }
    apply IH. lia.
Qed.

(** [search] finds a match whenever the pattern matches at some position. *)
Lemma search_from_complete r (pre s : str) i prev :
  (forall prev', is_Some (Re.match_here r prev' s)) ->
  is_Some (Re.search_from r i prev (pre +:+ s)).
Proof.
  intros Hs. revert i prev. induction pre as [|a pre IH]; intros i prev.
  - rewrite append_nil_l. destruct (Hs prev) as [[[p s'] caps] E].
    destruct s; cbn [Re.search_from]; rewrite E; by eexists.
  - rewrite append_cons. cbn [Re.search_from].
    destruct (Re.match_here r prev (Str a (pre +:+ s))) as [[[p s'] caps]|];
      [by eexists | apply IH].
Qed.

Lemma run_two p (c1 c2 : char) (post : str) :
  p c1 = true -> p c2 = true ->
  Re.run p (Some 2) (Str c1 (Str c2 post)) = 2.
Proof. intros H1 H2. cbn. rewrite H1. cbn. rewrite H2. by destruct post. Qed.

(** Each phrase pattern matches at the start of its phrase followed by a
    city, a comma, optional white space and two lower-case letters. *)
Lemma phrase_matches (phrase city ws post : str) (c1 c2 : char) prev :
  city <> "" ->
  Py.all_chars az_space_comma city = true ->
  Py.all_chars Py.isspace ws = true ->
  Py.islower c1 = true -> Py.islower c2 = true ->
  is_Some (Re.match_here (Re.Seq (Re.Lit phrase) hq_location) prev
             (phrase +:+ city +:+ "," +:+ ws +:+ Str c1 (Str c2 "") +:+ post)).
Proof.
  intros Hne Hcity Hws Hc1 Hc2.
  unfold Re.match_here, hq_location, Re.seq, Re.plus, Re.star.
  cbn [Re.exec].
  destruct (lit_app phrase prev
              (city +:+ "," +:+ ws +:+ Str c1 (Str c2 "") +:+ post))
    as [p1 ->].
  set (rest1 := "," +:+ ws +:+ Str c1 (Str c2 "") +:+ post).
  pose proof (run_ge az_space_comma city rest1 Hcity) as Hrun.
  assert (1 <= Py.len city) as Hlen by (destruct city; [done | cbn; lia]).
  destruct (Re.run az_space_comma None (city +:+ rest1) <? 1)%nat eqn:Hlt.
  { apply Nat.ltb_lt in Hlt. lia. }
  apply give_back_complete with (j := Py.len city); [lia|].
  destruct (advance_app city p1 rest1) as [p2 ->].
  subst rest1. cbn [Re.exec].
  destruct (lit_app "," p2 (ws +:+ Str c1 (Str c2 "") +:+ post))
    as [p3 ->].
  set (rest2 := Str c1 (Str c2 "") +:+ post).
  pose proof (run_ge Py.isspace ws rest2 Hws) as Hrun2.
  replace (Re.run Py.isspace None (ws +:+ rest2) <? 0)%nat with false
    by (symmetry; apply Nat.ltb_ge; lia).
  apply give_back_complete with (j := Py.len ws); [lia|].
  destruct (advance_app ws p3 rest2) as [p4 ->].
  subst rest2. rewrite !append_cons, append_nil_l.
  rewrite run_two by done. cbn. by eexists.
Qed.

Lemma explicit_hq_some patterns t label :
  explicit_hq patterns t = Some label ->
  exists pat m, pat ∈ patterns /\ Re.search pat t = Some m
                /\ label = explicit_label m.
Proof.
  induction patterns as [|pat patterns IH]; cbn [explicit_hq]; [done|].
  destruct (Re.search pat t) as [m|] eqn:E.
  - intros [= <-]. exists pat, m. split; [apply list_elem_of_here | done].
  - intros (pat' & m & Hin & Hm & ->)%IH.
    exists pat', m. split; [by apply list_elem_of_further | done].
Qed.

Lemma explicit_hq_complete patterns t pat :
  pat ∈ patterns -> is_Some (Re.search pat t) -> is_Some (explicit_hq patterns t).
Proof.
  induction patterns as [|pat' patterns IH]; cbn [explicit_hq].
  - intros H. by apply elem_of_nil in H.
  - intros [-> | Hin]%elem_of_cons Hm.
    + destruct Hm as [m ->]. by eexists.
    + destruct (Re.search pat' t); [by eexists | by apply IH].
Qed.

(** C8: the three strategies of the resolver are tried in order and the
    first that matches decides.  Whenever the explicit-phrase strategy has
    a result, that result is returned.  It has one for every text whose
    lower-cased form contains "based in ", a city, a comma, optional white
    space and two lower-case letters, whatever stands before and after the
    phrase (a hub keyword, for instance): the result is then the label of
    a match of one of the three phrase patterns and the hub map is not
    consulted.  For instance a text naming New York and London around
    "based in Chicago, IL" resolves to "Chicago, IL", although the hub map
    alone would give "New York, NY". *)
Theorem explicit_phrase_wins :
  (forall text label,
      explicit_hq hq_patterns (Py.lower text) = Some label ->
      guess_hq text = label)
  /\ (forall text pre city ws c1 c2 post,
         Py.lower text
         = pre +:+ "based in " +:+ city +:+ "," +:+ ws
               +:+ Str c1 (Str c2 "") +:+ post ->
         city <> "" ->
         Py.all_chars az_space_comma city = true ->
         Py.all_chars Py.isspace ws = true ->
         Py.islower c1 = true -> Py.islower c2 = true ->
         exists pat m,
           pat ∈ hq_patterns
           /\ Re.search pat (Py.lower text) = Some m
           /\ guess_hq text = explicit_label m)
  /\ (let text := "Offices in New York and London. We are based in Chicago, IL. Visit our New York team." in
      hub_hq hub_map (Py.lower text) = Some "New York, NY"
      /\ guess_hq text = "Chicago, IL").
Proof.
  assert (forall text label,
             explicit_hq hq_patterns (Py.lower text) = Some label ->
             guess_hq text = label) as Hfirst.
  { intros text label E. unfold guess_hq. by rewrite E. }
  split; [exact Hfirst|]. split; [|by vm_compute].
  intros text pre city ws c1 c2 post Et Hne Hcity Hws Hc1 Hc2.
  destruct (explicit_hq_complete hq_patterns (Py.lower text)
              (Re.Seq (Re.Lit "based in ") hq_location))
    as [label Hlabel].
  - unfold hq_patterns. in_list.
  - rewrite Et. unfold Re.search. apply search_from_complete.
    intros prev. by apply phrase_matches.
  - destruct (explicit_hq_some _ _ _ Hlabel) as (pat & m & Hin & Hm & ->).
    exists pat, m. split; [done|]. split; [done|]. by apply Hfirst.
Qed.

End Claims.

(** ** The claims at concrete inputs

    The inputs below are ASCII text, on which every Unicode database gives
    the same result; they are evaluated with [Py.ascii_only]. *)

Section ClaimsAtInputs.

Existing Instance Py.ascii_only.

(** C6, as stated, fails: a text that mentions FINRA is classified
    "RegOps / Surveillance", the key of the score dictionary, which is not
    one of the six strings of the specification (it has
    "RegOps/Surveillance"). *)
Lemma regops_label_is_not_the_specified_one :
  classify_category "finra" = "RegOps / Surveillance"
  /\ (classify_category "finra" ∉ spec_categories)
  /\ (classify_category "finra" ∈ categories).
Proof.
  split; [by vm_compute|]. split.
  - change (classify_category "finra") with "RegOps / Surveillance".
    unfold spec_categories. intros H.
    repeat (apply elem_of_cons in H as [H|H]; [discriminate H|]).
    by apply elem_of_nil in H.
  - change (classify_category "finra") with "RegOps / Surveillance".
    unfold categories. in_list.
Qed.

Lemma classify_category_total_pure_witness :
  classify_category "finra rules"
  = classify_category "we file under sec rule 606".
Proof.
  apply (proj2 classify_category_total_pure
           "finra rules" "we file under sec rule 606").
  by vm_compute.
Defined.

Lemma msp_only_is_financial_msp_witness :
  classify_category "managed it" = "Financial MSP".
Proof.
  apply (msp_only_is_financial_msp "managed it");
    vm_compute; first [reflexivity | lia].
Defined.

(** C2, as stated, fails: a merged roster may hold a row without a website
    (the pandas merge keeps such rows), and the enricher drops it. *)
Lemma enrich_drops_row_without_website :
  let kept := mkRow "Omega" "https://omega.example" "" "" "" "" "s" "" "" in
  let lost := mkRow "Acme Booth" "" "" "" "" "Booth: 12" "conf:X" "X" "" in
  merge_raw_sources true None (Some [kept; lost]) None = Some [kept; lost]
  /\ Name <$> enrich (fun _ => "") [kept; lost] = ["Omega"]
  /\ enrich_row (fun _ => "") lost = None.
Proof. by vm_compute. Qed.

Lemma known_financial_msp_override_witness :
  let row := mkRow "Eze" "https://eze-castle.com/about" "" "" "" "" "" "" "" in
  exists row', enrich_row (fun _ => "") row = Some row'
               /\ Category row' = "Financial MSP" /\ Fit row' = "Core".
Proof.
  intros row.
  assert (domain_from_url (Py.strip (Website row)) ∈ KNOWN_FINANCIAL_MSPS)
    as Hin by (apply (bool_decide_eq_true_1 (_ ∈ _)); by vm_compute).
  destruct (known_financial_msp_override (fun _ => "") row Hin)
    as (row' & E & Hc & Hf & _).
  exists row'. auto.
Defined.

(** C1, as stated, fails.  On the pandas path two rows without a website
    whose names differ only in case and surrounding spaces are both kept;
    on the fallback path a row without a website is discarded even when
    its name is unique. *)
Lemma empty_website_name_not_normalized :
  let site := mkRow "Omega" "https://omega.example" "" "" "" "" "search:q" "" "" in
  let a := mkRow "Acme" "" "" "" "" "" "conf:X" "X" "" in
  let b := mkRow " acme" "" "" "" "" "" "conf:X" "X" "" in
  website_norm a = "" /\ website_norm b = ""
  /\ Py.lower (Py.strip (Name a)) = Py.lower (Py.strip (Name b))
  /\ merge_raw_sources true (Some [site]) (Some [a; b]) None = Some [site; a; b]
  /\ merge_raw_sources false (Some [site]) (Some [a; b]) None = Some [site].
Proof. by vm_compute. Qed.

Lemma empty_website_dedup_on_exact_name_witness :
  let first := mkRow "Acme" "" "" "" "" "Booth: 1" "conf:X" "X" "" in
  let again := mkRow "Acme" "" "" "" "" "Booth: 2" "conf:X" "X" "" in
  let other := mkRow "acme" "" "" "" "" "" "conf:X" "X" "" in
  first ∈ [first; other] /\ other ∈ [first; other].
Proof.
  intros first again other.
  assert (merge_raw_sources true None (Some [first; again; other]) None
          = Some [first; other]) as Hout by (by vm_compute).
  destruct (empty_website_dedup_on_exact_name
              None (Some [first; again; other]) [first; other] Hout)
    as [_ Hfirst].
  split.
  - apply (Hfirst [] first [again; other]); [reflexivity | by vm_compute |].
    intros x Hx. by apply elem_of_nil in Hx.
  - apply (Hfirst [first; again] other []); [reflexivity | by vm_compute |].
    intros x Hx _.
    repeat (apply elem_of_cons in Hx as [-> | Hx]; [discriminate|]).
    by apply elem_of_nil in Hx.
Defined.

(** C3, as stated, fails on the pandas path: a row without a website that
    is scanned before a row with one comes after it in the output. *)
Lemma merge_moves_rows_without_website_last :
  let a := mkRow "Acme" "" "" "" "" "" "conf:X" "X" "" in
  let b := mkRow "Beta" "https://beta.example" "" "" "" "" "conf:X" "X" "" in
  scanned None (Some [a; b]) = [a; b]
  /\ merge_raw_sources true None (Some [a; b]) None = Some [b; a]
  /\ ~ ([b; a] `sublist_of` [a; b]).
Proof.
  split; [by vm_compute|]. split; [by vm_compute|].
  intros H. apply sublist_cons_l in H as (k1 & k2 & E & H).
  apply sublist_cons_l in H as (k3 & k4 & -> & _).
  destruct k1 as [|x [|y k1]]; [discriminate E| |].
  - injection E as _ E. by destruct k3.
  - injection E as _ _ E. by destruct k1.
Qed.

Lemma merge_order_witness :
  let a := mkRow "Acme" "" "" "" "" "" "conf:X" "X" "" in
  let b := mkRow "Beta" "https://beta.example" "" "" "" "" "conf:X" "X" "" in
  let c := mkRow "Beta again" " HTTPS://BETA.example" "" "" "" "" "conf:X" "X" "" in
  [b; a] `prefix_of` [b] ++ [a].
Proof.
  intros a b c.
  apply (merge_order true (Some [a; b]) (Some [c]) None [b; a]).
  by vm_compute.
Defined.

(** C4, as stated, fails: trimming and lower-casing leave the trailing
    slash, so the two websites are two keys and both rows are kept, on
    either path. *)
Lemma trailing_slash_keeps_both :
  let r1 := mkRow "Example" "HTTPS://Example.com" "" "" "" "" "search:q" "" "" in
  let r2 := mkRow "Example Inc" "https://example.com/" "" "" "" "" "conf:X" "X" "" in
  website_norm r1 = "https://example.com"
  /\ website_norm r2 = "https://example.com/"
  /\ merge_raw_sources true (Some [r1]) (Some [r2]) None = Some [r1; r2]
  /\ merge_raw_sources false (Some [r1]) (Some [r2]) None = Some [r1; r2].
Proof. by vm_compute. Qed.

Lemma website_key_is_trim_lowercase_witness :
  let r1 := mkRow "Example" "HTTPS://Example.com" "" "" "" "" "search:q" "" "" in
  let r2 := mkRow "Example Inc" "https://example.com" "" "" "" "" "conf:X" "X" "" in
  merge_raw_sources true (Some [r1]) (Some [r2]) None = Some [r1].
Proof.
  intros r1 r2.
  apply (proj1 (website_key_is_trim_lowercase true r1 r2 eq_refl) eq_refl).
Defined.

Lemma failures_are_isolated_witness :
  let calls :=
    [ ("hedge fund MSP", None);
      ("market data ops",
       Some [mkResult (Some "Managed IT | Acme") (Some "https://Acme.com/x") "d";
             mkResult None (Some "https://acme.com/about") "";
             mkResult (Some "Beta") (Some "https://beta.example/") ""]) ] in
  let found :=
    [mkRow "Beta" "https://beta.example" "" "" "" "" "conf:B" "B" "";
     mkRow "Gamma" "" "" "" "" "" "conf:B" "B" ""] in
  let down := mkConf "A" "https://a.example/list" (fun _ _ => Some []) in
  let up := mkConf "B" "https://b.example/list" (fun _ _ => Some found) in
  let broken := mkConf "C" "https://c.example/list" (fun _ _ => None) in
  let confs := [(down, None); (broken, Some "<html>"); (up, Some "<html>")] in
  (run_search_discovery calls (Some 1%Z)).1
  = take (Z.to_nat 1)
      ((first_per_domain ∅ (concat (offered <$> calls))).*2)
  /\ (run_conference_scrape confs (Some 1%Z)).1
     = take (Z.to_nat 1)
         (concat ((fun call => default [] (scraped call)) <$> confs))
  /\ (run_conference_scrape confs (Some 1%Z)).1
     = (run_conference_scrape (filter conf_ok confs) (Some 1%Z)).1
  /\ scraped (broken, Some "<html>") = None.
Proof.
  intros calls found down up broken confs.
  destruct failures_are_isolated
    as (_ & Hsearch & _ & _ & Hconf & Hskip & _ & _ & Hparse).
  split; [apply (Hsearch calls 1%Z); lia|].
  split; [apply (Hconf confs 1%Z); lia|].
  split; [apply (Hskip confs (Some 1%Z)); intros m [= <-]; lia|].
  apply (Hparse broken "<html>"). reflexivity.
Defined.

Lemma explicit_phrase_wins_witness :
  let text := "New York office; we are based in Chicago, IL." in
  exists pat m,
    pat ∈ hq_patterns
    /\ Re.search pat (Py.lower text) = Some m
    /\ guess_hq text = explicit_label m.
Proof.
  intros text.
  apply (proj1 (proj2 explicit_phrase_wins) text
           "new york office; we are " "chicago" " " (ch "i") (ch "l") ".");
    first [by vm_compute | discriminate].
Defined.

End ClaimsAtInputs.

(** * Further properties of the code *)

Section Further.

Context `{U : Py.Unicode}.

(** ** Category classifier *)

Lemma scores_values f m t d o r fx :
  scores f m t d o r fx
  = [ ("Financial MSP", financial_score f m);
      ("Trading Infra MSP", t * 3);
      ("Market Data Ops", d * 3);
      ("OMS/EMS & FIX", oms_score o t d fx);
      ("RegOps / Surveillance", r * 3);
      ("Generic IT", generic_score f m t d o r) ]%nat.
Proof.
  destruct f, m, t, d, o as [|[|o]], r, fx; reflexivity.
Qed.

(** The arg-max over the six keys, with the zero fallback: either every
    score is zero and the answer is Generic IT, or the answer is the first
    key that scores the maximum, and that key is not Generic IT when
    Generic IT scores at most the Financial MSP score. *)
Lemma pick_spec (a b c e g z : nat) :
  let score := [ ("Financial MSP", a); ("Trading Infra MSP", b);
                 ("Market Data Ops", c); ("OMS/EMS & FIX", e);
                 ("RegOps / Surveillance", g); ("Generic IT", z) ] in
  let cat := max_key score in
  let top := get score cat in
  (a <= top /\ b <= top /\ c <= top /\ e <= top /\ g <= top /\ z <= top)%nat
  /\ (top <= a -> cat = "Financial MSP")%nat
  /\ (z <= a -> cat <> "Generic IT")%nat
  /\ (a = 0 -> b = 0 -> c = 0 -> e = 0 -> g = 0 -> z = 0 -> top = 0)%nat.
Proof.
  max_cases; repeat split; intros; first [lia | reflexivity | discriminate].
Qed.

Lemma generic_le_financial f m t d o r :
  (generic_score f m t d o r <= financial_score f m)%nat.
Proof.
  unfold generic_score, financial_score.
  destruct f, m, t, d, o, r; cbn; lia.
Qed.

(** [classify_hits] is the arg-max with the zero fallback: the final
    override never changes the answer. *)
Lemma classify_hits_pick f m t d o r fx :
  let score := scores f m t d o r fx in
  classify_hits f m t d o r fx
  = if (get score (max_key score) =? 0)%nat then "Generic IT"
    else max_key score.
Proof.
  unfold classify_hits. cbv zeta. rewrite scores_values.
  set (score := [ ("Financial MSP", financial_score f m); _; _; _; _; _ ]).
  destruct (pick_spec (financial_score f m) (t * 3) (d * 3)
              (oms_score o t d fx) (r * 3) (generic_score f m t d o r))
    as ((Ha & _) & Hfirst & _). fold score in Ha, Hfirst.
  destruct ((0 <? f)%nat && (0 <? m)%nat) eqn:Hfm; [|reflexivity].
  assert (0 < financial_score f m)%nat as Hpos.
  { unfold financial_score. rewrite Hfm.
    apply andb_true_iff in Hfm as [Hf%Nat.ltb_lt _]. lia. }
  destruct (Nat.eqb_spec (get score (max_key score)) 0) as [E|_]; [lia|].
  cbn [andb].
  destruct (Nat.leb_spec (get score (max_key score)) (get score "Financial MSP"))
    as [Hle|_]; [|reflexivity].
  symmetry. by apply Hfirst.
Qed.

Lemma classify_hits_generic f m t d o r fx :
  classify_hits f m t d o r fx = "Generic IT"
  <-> (financial_score f m = 0 /\ t = 0 /\ d = 0
       /\ oms_score o t d fx = 0 /\ r = 0)%nat.
Proof.
  rewrite classify_hits_pick. cbv zeta. rewrite scores_values.
  set (score := [ ("Financial MSP", financial_score f m); _; _; _; _; _ ]).
  destruct (pick_spec (financial_score f m) (t * 3) (d * 3)
              (oms_score o t d fx) (r * 3) (generic_score f m t d o r))
    as (Hmax & _ & Hgit & Hzero). fold score in Hmax, Hgit, Hzero.
  pose proof (generic_le_financial f m t d o r) as Hz.
  destruct (Nat.eqb_spec (get score (max_key score)) 0) as [E|Hne].
  - split; [intros _; lia | done].
  - split; [intros E; by apply Hgit in E|].
    intros (Ha & -> & -> & He & ->). exfalso. apply Hne, Hzero; lia.
Qed.

(** X1: the final override of the classifier never changes the result:
    for every text the answer is the first category, in the order of the
    score dictionary, that scores the maximum, or "Generic IT" when every
    score is zero. *)
Theorem final_override_is_redundant (text : str) :
  let score :=
    scores (hits FINANCE_KEYWORDS text) (hits MSP_KEYWORDS text)
      (hits TRADING_INFRA_KEYWORDS text) (hits MARKET_DATA_KEYWORDS text)
      (hits OMS_EMS_KEYWORDS text) (hits REG_OPS_KEYWORDS text)
      (Py.contains "fx" text) in
  classify_category text
  = if (get score (max_key score) =? 0)%nat then "Generic IT"
    else max_key score.
Proof. apply classify_hits_pick. Qed.

(** X2: the classifier answers "Generic IT" exactly for the texts without
    any finance, MSP, trading-infrastructure, market-data or reg-ops
    phrase that have either no OMS/EMS phrase or a single one and no
    "fx"; a text with a plain MSP phrase is never Generic IT. *)
Theorem generic_it_iff_no_signal (text : str) :
  classify_category text = "Generic IT"
  <-> (hits FINANCE_KEYWORDS text = 0 /\ hits MSP_KEYWORDS text = 0
       /\ hits TRADING_INFRA_KEYWORDS text = 0
       /\ hits MARKET_DATA_KEYWORDS text = 0
       /\ hits REG_OPS_KEYWORDS text = 0
       /\ (hits OMS_EMS_KEYWORDS text = 0
           \/ (hits OMS_EMS_KEYWORDS text = 1
               /\ Py.contains "fx" text = false)))%nat.
Proof.
  unfold classify_category. rewrite classify_hits_generic.
  unfold financial_score, oms_score.
  destruct (hits FINANCE_KEYWORDS text) as [|f],
           (hits MSP_KEYWORDS text) as [|m],
           (hits TRADING_INFRA_KEYWORDS text) as [|t],
           (hits MARKET_DATA_KEYWORDS text) as [|d],
           (hits OMS_EMS_KEYWORDS text) as [|[|o]],
           (hits REG_OPS_KEYWORDS text) as [|r],
           (Py.contains "fx" text); cbn; intuition (try lia; try discriminate).
Qed.

Lemma pick_scores_most (a b c e g z : nat) (k : str) (v : nat) :
  let score := [ ("Financial MSP", a); ("Trading Infra MSP", b);
                 ("Market Data Ops", c); ("OMS/EMS & FIX", e);
                 ("RegOps / Surveillance", g); ("Generic IT", z) ] in
  (k, v) ∈ score ->
  (v <= get score (if (get score (max_key score) =? 0)%nat then "Generic IT"
                   else max_key score))%nat.
Proof.
  cbv zeta. intros Hin.
  destruct (pick_spec a b c e g z) as (Hmax & _). cbv zeta in Hmax.
  set (score := [ ("Financial MSP", a); _; _; _; _; _ ]) in *.
  destruct (Nat.eqb_spec (get score (max_key score)) 0) as [E|_]; subst score.
  - rewrite E in Hmax. cbn.
    repeat (apply elem_of_cons in Hin as [[= -> ->]|Hin]; [lia|]).
    by apply elem_of_nil in Hin.
  - repeat (apply elem_of_cons in Hin as [[= -> ->]|Hin]; [lia|]).
    by apply elem_of_nil in Hin.
Qed.

(** X3: the category returned scores at least as much as every category
    of the score dictionary. *)
Theorem classified_category_scores_most (text : str) (c : str) (v : nat) :
  let score :=
    scores (hits FINANCE_KEYWORDS text) (hits MSP_KEYWORDS text)
      (hits TRADING_INFRA_KEYWORDS text) (hits MARKET_DATA_KEYWORDS text)
      (hits OMS_EMS_KEYWORDS text) (hits REG_OPS_KEYWORDS text)
      (Py.contains "fx" text) in
  (c, v) ∈ score -> (v <= get score (classify_category text))%nat.
Proof.
  cbv zeta. unfold classify_category. rewrite classify_hits_pick. cbv zeta.
  rewrite scores_values. apply pick_scores_most.
Qed.

(** ** Enricher *)

Section EnrichFurther.

Variable fetch_site_text : str -> str.

(** The classification of a row whose fit is the fit of its category. *)
Lemma classify_firm_coherent (row : Row) :
  Category row ∈ categories ->
  Fit row = classify_fit (Category row) ->
  classify_firm row
  = if Py.eqb (Category row) "Generic IT"
    then "Pattern / Comp / Future Partner"
    else "Potential acquisition target (near-term)".
Proof.
  unfold classify_firm. intros Hc ->. revert Hc.
  generalize (Category row). intros c Hc. unfold categories in Hc.
  repeat (apply elem_of_cons in Hc as [->|Hc]); [by vm_compute..|].
  by apply elem_of_nil in Hc.
Qed.

(** X4: every enriched row is coherent: its category is one of the six,
    its fit is the fit of its category (also under the domain override),
    and it is a "Potential acquisition target (near-term)" exactly when
    its category is not "Generic IT" and its trimmed, lower-cased name is
    not in [KNOWN_COMP_NAMES]. *)
Theorem enriched_rows_are_coherent (input : list Row) (row' : Row) :
  row' ∈ enrich fetch_site_text input ->
  Category row' ∈ categories
  /\ Fit row' = classify_fit (Category row')
  /\ Classification row'
     = if bool_decide (Py.lower (Py.strip (Name row')) ∈ KNOWN_COMP_NAMES)
          || Py.eqb (Category row') "Generic IT"
       then "Pattern / Comp / Future Partner"
       else "Potential acquisition target (near-term)".
Proof.
  unfold enrich. intros (row & _ & E)%list_elem_of_omap.
  unfold enrich_row in E.
  destruct (Py.falsy (Py.strip (Website row))); [discriminate E|].
  pose proof (classify_hits_categories
    (hits FINANCE_KEYWORDS (fetch_site_text (Py.strip (Website row))))
    (hits MSP_KEYWORDS (fetch_site_text (Py.strip (Website row))))
    (hits TRADING_INFRA_KEYWORDS (fetch_site_text (Py.strip (Website row))))
    (hits MARKET_DATA_KEYWORDS (fetch_site_text (Py.strip (Website row))))
    (hits OMS_EMS_KEYWORDS (fetch_site_text (Py.strip (Website row))))
    (hits REG_OPS_KEYWORDS (fetch_site_text (Py.strip (Website row))))
    (Py.contains "fx" (fetch_site_text (Py.strip (Website row))))) as Hc.
  fold (classify_category (fetch_site_text (Py.strip (Website row)))) in Hc.
  revert E Hc.
  generalize (classify_category (fetch_site_text (Py.strip (Website row)))).
  generalize (normalize_hq
    (if Py.falsy (Py.strip (HQ row))
     then if Py.falsy (guess_hq (fetch_site_text (Py.strip (Website row))))
          then Py.strip (HQ row)
          else guess_hq (fetch_site_text (Py.strip (Website row)))
     else Py.strip (HQ row))).
  intros hq c E Hc.
  assert (exists c', c' ∈ categories
            /\ (if bool_decide (domain_from_url (Py.strip (Website row))
                                ∈ KNOWN_FINANCIAL_MSPS)
                then ("Financial MSP", "Core")
                else (c, classify_fit c)) = (c', classify_fit c'))
    as (c' & Hc' & Epair).
  { destruct (bool_decide (_ ∈ KNOWN_FINANCIAL_MSPS)).
    - exists "Financial MSP". split; [unfold categories; in_list | done].
    - by exists c. }
  rewrite Epair in E. cbv beta iota zeta in E.
  set (row3 := set_HQ hq (set_Fit (classify_fit c') (set_Category c' row))) in E.
  assert (Category row3 ∈ categories /\ Fit row3 = classify_fit (Category row3))
    as [Hcat Hfit] by done.
  destruct (bool_decide (Py.lower (Py.strip (Name row3)) ∈ KNOWN_COMP_NAMES))
    eqn:Hcomp; injection E as <-;
    change (Name (set_Classification _ row3)) with (Name row3);
    change (Category (set_Classification _ row3)) with (Category row3);
    change (Fit (set_Classification _ row3)) with (Fit row3);
    rewrite Hcomp; (split; [done|]); (split; [done|]); cbn [orb].
  - reflexivity.
  - apply (classify_firm_coherent row3 Hcat Hfit).
Qed.

(** X5: when the page cannot be fetched ([fetch_site_text] returns the
    empty text) a row outside the domain override list is still enriched:
    as "Generic IT", "Stretch", "Pattern / Comp / Future Partner", with
    its own HQ normalized and no guess made. *)
Theorem unfetched_site_is_generic (row : Row) :
  Py.strip (Website row) <> "" ->
  fetch_site_text (Py.strip (Website row)) = "" ->
  domain_from_url (Py.strip (Website row)) ∉ KNOWN_FINANCIAL_MSPS ->
  enrich_row fetch_site_text row
  = Some (set_Classification "Pattern / Comp / Future Partner"
            (set_HQ (normalize_hq (Py.strip (HQ row)))
               (set_Fit "Stretch" (set_Category "Generic IT" row)))).
Proof.
  intros Hurl Htext Hdom. unfold enrich_row.
  destruct (Py.strip (Website row)) as [|a u] eqn:Eu; [done|].
  cbn [Py.falsy]. rewrite Htext, (bool_decide_eq_false_2 _ Hdom).
  change (classify_category "") with "Generic IT".
  change (guess_hq "") with "".
  change (classify_fit "Generic IT") with "Stretch".
  assert ((if Py.falsy (Py.strip (HQ row))
           then if Py.falsy "" then Py.strip (HQ row) else ""
           else Py.strip (HQ row)) = Py.strip (HQ row)) as ->.
  { by destruct (Py.strip (HQ row)). }
  by destruct (bool_decide (_ ∈ KNOWN_COMP_NAMES)).
Qed.

End EnrichFurther.

(** ** Merger *)

(** [merge_raw_sources] in closed form: whether a file is written, and
    what it holds. *)
Lemma merge_raw_sources_eq pd search_csv conf_csv cap :
  merge_raw_sources pd search_csv conf_csv cap
  = if pd
    then match search_csv, conf_csv with
         | None, None => None
         | _, _ =>
             Some (truncate cap (merged_rows true (scanned search_csv conf_csv)))
         end
    else match merged_rows false (scanned search_csv conf_csv) with
         | [] => None
         | l => Some (truncate cap l)
         end.
Proof.
  unfold merge_raw_sources, merged_rows. destruct pd.
  - rewrite <- (concat_frames search_csv conf_csv). unfold merge_pandas.
    by destruct search_csv, conf_csv.
  - unfold merge_fallback. by rewrite merge_fallback_drop_duplicates, app_nil_r.
Qed.

Lemma with_site_rows (all : list Row) :
  Forall (fun r => website_norm r <> "")
    (drop_duplicates website_norm (filter (fun r => website_norm r <> "") all)).
Proof.
  eapply Forall_sublist; [apply drop_duplicates_from_sublist|].
  apply Forall_filter_self.
Qed.

Lemma without_site_rows (pd : bool) (all : list Row) :
  Forall (fun r => website_norm r = "")
    (if pd then drop_duplicates Name (filter (fun r => website_norm r = "") all)
     else []).
Proof.
  destruct pd; [|constructor].
  eapply Forall_sublist; [apply drop_duplicates_from_sublist|].
  apply Forall_filter_self.
Qed.

Lemma filter_site_app (W N : list Row) :
  Forall (fun r => website_norm r <> "") W ->
  Forall (fun r => website_norm r = "") N ->
  filter (fun r => website_norm r <> "") (W ++ N) = W
  /\ filter (fun r => website_norm r = "") (W ++ N) = N.
Proof.
  intros HW HN. rewrite !filter_app. split.
  - rewrite (filter_all _ W HW), (filter_none _ N); [by rewrite app_nil_r|].
    eapply Forall_impl; [exact HN|]. by intros r -> H.
  - rewrite (filter_all _ N HN), (filter_none _ W); [done|].
    eapply Forall_impl; [exact HW|]. by intros r H.
Qed.

Lemma merged_rows_site (pd : bool) (all : list Row) :
  filter (fun r => website_norm r <> "") (merged_rows pd all)
  = drop_duplicates website_norm (filter (fun r => website_norm r <> "") all).
Proof.
  unfold merged_rows.
  apply filter_site_app; [apply with_site_rows | apply without_site_rows].
Qed.

(** X6: on either path, without a cap, no two rows of the output that
    have a website share a normalized website, and the first scanned row
    of every normalized website is in the output. *)
Theorem website_dedup_first_wins (pd : bool)
    (search_csv conf_csv : option (list Row)) (out : list Row) :
  merge_raw_sources pd search_csv conf_csv None = Some out ->
  NoDup (website_norm <$> filter (fun r => website_norm r <> "") out)
  /\ forall l1 r l2,
       scanned search_csv conf_csv = l1 ++ r :: l2 ->
       website_norm r <> "" ->
       (forall x, x ∈ l1 -> website_norm x <> website_norm r) ->
       r ∈ out.
Proof.
  intros ->%merge_raw_sources_spec. cbn [truncate]. split.
  - rewrite merged_rows_site. apply drop_duplicates_from_NoDup.
  - intros l1 r l2 -> Hr Hl1. unfold merged_rows.
    apply elem_of_app. left.
    rewrite filter_app, filter_cons_True by done.
    apply drop_duplicates_from_first; [apply not_elem_of_empty|].
    intros x [Hx Hin]%list_elem_of_filter. by apply Hl1.
Qed.

Lemma merged_rows_subset pd all r : r ∈ merged_rows pd all -> r ∈ all.
Proof.
  unfold merged_rows. intros [Hin | Hin]%elem_of_app.
  - eapply elem_of_sublist in Hin; [|apply drop_duplicates_from_sublist].
    by apply list_elem_of_filter in Hin as [_ ?].
  - destruct pd; [|by apply elem_of_nil in Hin].
    eapply elem_of_sublist in Hin; [|apply drop_duplicates_from_sublist].
    by apply list_elem_of_filter in Hin as [_ ?].
Qed.

(** X7: whatever the cap and the path, every row of the merged output is
    one of the rows read; a positive cap [m] leaves at most [m] rows, and a
    cap that is zero or negative cuts nothing. *)
Theorem merge_output_bounds (pd : bool)
    (search_csv conf_csv : option (list Row)) (cap : option Z) (out : list Row) :
  merge_raw_sources pd search_csv conf_csv cap = Some out ->
  (forall r, r ∈ out -> r ∈ scanned search_csv conf_csv)
  /\ (forall m, cap = Some m -> (0 < m)%Z -> (Z.of_nat (length out) <= m)%Z)
  /\ (forall m, cap = Some m -> (m <= 0)%Z ->
        merge_raw_sources pd search_csv conf_csv None = Some out).
Proof.
  intros H. pose proof H as ->%merge_raw_sources_spec. repeat split.
  - intros r Hr. eapply merged_rows_subset.
    eapply elem_of_prefix; [exact Hr | apply truncate_prefix].
  - intros m -> Hm. cbn [truncate].
    destruct (Z.ltb_spec 0 m); [|lia].
    destruct (Z.ltb_spec m (Z.of_nat (length (merged_rows pd (scanned search_csv conf_csv)))));
      cbn [andb]; [|lia].
    rewrite length_take. lia.
  - intros m -> Hm. rewrite merge_raw_sources_eq in H |- *.
    cbn [truncate] in *. destruct (Z.ltb_spec 0 m); [lia|]. exact H.
Qed.

Section DropDuplicatesFixed.

Variable column : Row -> str.

(** A list without repeated keys, none of them seen, is left as it is. *)
Lemma drop_duplicates_from_fixed seen l :
  NoDup (column <$> l) ->
  (forall r, r ∈ l -> column r ∉ seen) ->
  drop_duplicates_from column seen l = l.
Proof.
  revert seen. induction l as [|x l IH]; intros seen Hnd Hseen; [done|].
  rewrite fmap_cons in Hnd. apply NoDup_cons in Hnd as [Hx Hnd].
  cbn [drop_duplicates_from].
  rewrite bool_decide_eq_false_2 by (apply Hseen, list_elem_of_here).
  f_equal. apply IH; [done|].
  intros r Hr [E%elem_of_singleton | Hin]%elem_of_union.
  - apply Hx. rewrite <- E. by apply list_elem_of_fmap_2.
  - by apply (Hseen r); [apply list_elem_of_further|].
Qed.

(** Rows whose keys were all seen are all dropped. *)
Lemma drop_duplicates_from_seen seen l :
  (forall r, r ∈ l -> column r ∈ seen) ->
  drop_duplicates_from column seen l = [].
Proof.
  induction l as [|x l IH]; intros Hseen; [done|].
  cbn [drop_duplicates_from].
  rewrite bool_decide_eq_true_2 by (apply Hseen, list_elem_of_here).
  apply IH. intros r Hr. by apply Hseen, list_elem_of_further.
Qed.

Lemma drop_duplicates_fixed l :
  NoDup (column <$> l) -> drop_duplicates column l = l.
Proof.
  intros Hnd. apply drop_duplicates_from_fixed; [done|].
  intros r _. apply not_elem_of_empty.
Qed.

Lemma drop_duplicates_twice l :
  NoDup (column <$> l) -> drop_duplicates column (l ++ l) = l.
Proof.
  intros Hnd. unfold drop_duplicates. rewrite drop_duplicates_from_app.
  fold (drop_duplicates column l). rewrite drop_duplicates_fixed by done.
  rewrite drop_duplicates_from_seen; [by rewrite app_nil_r|].
  intros r Hr. apply elem_of_union_l, elem_of_list_to_set.
  by apply list_elem_of_fmap_2.
Qed.

End DropDuplicatesFixed.

(** A merged list is a fixed point of the merge, alone or doubled. *)
Lemma merged_rows_fixed_parts (pd : bool) (W N : list Row) :
  Forall (fun r => website_norm r <> "") W ->
  Forall (fun r => website_norm r = "") N ->
  NoDup (website_norm <$> W) ->
  NoDup (Name <$> N) ->
  (pd = false -> N = []) ->
  merged_rows pd (W ++ N) = W ++ N
  /\ merged_rows pd ((W ++ N) ++ (W ++ N)) = W ++ N.
Proof.
  intros HW HN HWnd HNnd Hpd.
  destruct (filter_site_app W N HW HN) as [EW EN].
  unfold merged_rows. rewrite !(filter_app _ (W ++ N) (W ++ N)), !EW, !EN.
  rewrite (drop_duplicates_fixed website_norm W HWnd).
  rewrite (drop_duplicates_twice website_norm W HWnd).
  destruct pd.
  - by rewrite (drop_duplicates_fixed Name N HNnd),
               (drop_duplicates_twice Name N HNnd).
  - by rewrite (Hpd eq_refl).
Qed.

Lemma merged_rows_fixed (pd : bool) (all : list Row) :
  let out := merged_rows pd all in
  merged_rows pd out = out /\ merged_rows pd (out ++ out) = out.
Proof.
  cbv zeta.
  apply (merged_rows_fixed_parts pd
           (drop_duplicates website_norm
              (filter (fun r => website_norm r <> "") all))
           (if pd
            then drop_duplicates Name (filter (fun r => website_norm r = "") all)
            else [])).
  - apply with_site_rows.
  - apply without_site_rows.
  - apply drop_duplicates_from_NoDup.
  - destruct pd; [apply drop_duplicates_from_NoDup | constructor].
  - by intros ->.
Qed.

(** X8: the merger is idempotent.  Merging its own (uncapped) output
    again, alone or together with a copy of itself, writes that output
    unchanged, on either path. *)
Theorem merge_is_idempotent (pd : bool)
    (search_csv conf_csv : option (list Row)) (out : list Row) :
  merge_raw_sources pd search_csv conf_csv None = Some out ->
  merge_raw_sources pd (Some out) None None = Some out
  /\ merge_raw_sources pd None (Some out) None = Some out
  /\ merge_raw_sources pd (Some out) (Some out) None = Some out.
Proof.
  intros H. pose proof H as E%merge_raw_sources_spec. cbn [truncate] in E.
  destruct (merged_rows_fixed pd (scanned search_csv conf_csv)) as [E1 E2].
  rewrite <- E in E1, E2.
  assert (pd = false -> out <> []) as Hne.
  { intros ->. revert H. rewrite merge_raw_sources_eq.
    destruct (merged_rows false (scanned search_csv conf_csv)) as [|r l];
      [done|].
    cbn [truncate]. by intros [= <-]. }
  rewrite !merge_raw_sources_eq. unfold scanned. cbn [default truncate app].
  unfold id. rewrite app_nil_r. destruct pd; rewrite E1, E2; [done|].
  destruct out; [by destruct Hne | done].
Qed.

(** X9: a source file that is missing is treated as an empty one as long
    as the other exists; when both are missing nothing is written, on
    either path and under every cap. *)
Theorem missing_source_is_empty (pd : bool) (file : list Row) (cap : option Z) :
  merge_raw_sources pd None (Some file) cap
    = merge_raw_sources pd (Some []) (Some file) cap
  /\ merge_raw_sources pd (Some file) None cap
     = merge_raw_sources pd (Some file) (Some []) cap
  /\ merge_raw_sources pd None None cap = None.
Proof.
  rewrite !merge_raw_sources_eq. unfold scanned. cbn [default app].
  rewrite !app_nil_r. by destruct pd.
Qed.

Lemma fillna_plain (na_values : str -> bool) (cell : str) :
  negb (na_values cell) || Py.falsy cell = true ->
  fillna na_values cell = cell.
Proof.
  unfold fillna. destruct (na_values cell); [|done].
  by destruct cell.
Qed.

(** On a file without missing-value markers the pandas reader hands over
    the rows as written, as [csv.DictReader] does. *)
Lemma read_csv_plain (na_values : str -> bool) (file : list Row) :
  Forall (fun r => plain na_values r = true) file ->
  read_csv na_values file = file.
Proof.
  unfold read_csv. induction 1 as [|r file Hr _ IH]; [done|].
  rewrite fmap_cons, IH. f_equal. destruct r as [n w h c f o s k l].
  unfold plain, cells in Hr. cbn [forallb Name Website HQ Category Fit Notes
    Source Conference Classification] in *.
  repeat (apply andb_true_iff in Hr as [?%fillna_plain Hr]).
  by f_equal.
Qed.

Lemma read_csv_plain_source (na_values : str -> bool)
    (search_file conf_file : option (list Row)) :
  Forall (fun r => plain na_values r = true) (scanned search_file conf_file) ->
  read_csv na_values <$> search_file = search_file
  /\ read_csv na_values <$> conf_file = conf_file.
Proof.
  unfold scanned. intros [Hs Hc]%Forall_app.
  destruct search_file, conf_file; cbn in *; by rewrite ?read_csv_plain.
Qed.

(** X10: when no cell of the two files is a missing-value marker of
    pandas (so that both readers hand over the rows as written) and every
    row has a website, whatever the fallback path writes is exactly what
    the pandas path writes. *)
Theorem paths_agree_on_rows_with_website (na_values : str -> bool)
    (search_file conf_file : option (list Row)) (cap : option Z)
    (out : list Row) :
  Forall (fun r => plain na_values r = true) (scanned search_file conf_file) ->
  Forall (fun r => website_norm r <> "") (scanned search_file conf_file) ->
  merge_raw_sources false search_file conf_file cap = Some out ->
  merge_raw_sources true (read_csv na_values <$> search_file)
    (read_csv na_values <$> conf_file) cap = Some out.
Proof.
  intros [-> ->]%read_csv_plain_source Hall. rewrite !merge_raw_sources_eq.
  assert (merged_rows true (scanned search_file conf_file)
          = merged_rows false (scanned search_file conf_file)) as ->.
  { unfold merged_rows. f_equal. rewrite filter_none; [done|].
    eapply Forall_impl; [exact Hall|]. by intros r H. }
  destruct search_file, conf_file; try done.
  - by destruct (merged_rows false _).
  - by destruct (merged_rows false _).
  - by destruct (merged_rows false _).
Qed.

(** ** Merger and enricher together *)

Lemma lower_empty (s : str) : Py.lower s = "" <-> s = "".
Proof.
  split; [|by intros ->]. unfold Py.lower. destruct (Py.isascii s).
  - by destruct s.
  - apply Py.unicode_lower_nonempty.
Qed.

Lemma website_norm_empty (r : Row) :
  website_norm r = "" <-> Py.strip (Website r) = "".
Proof. apply lower_empty. Qed.

Lemma truncate_with_site cap (W N : list Row) :
  Forall (fun r => website_norm r <> "") W ->
  Forall (fun r => website_norm r = "") N ->
  filter (fun r => website_norm r <> "") (truncate cap (W ++ N)) = truncate cap W.
Proof.
  intros HW HN.
  assert (forall n, filter (fun r => website_norm r <> "") (take n (W ++ N))
                    = take n W) as Htake.
  { intros n. rewrite take_app, filter_app.
    rewrite filter_all by (by apply Forall_take).
    rewrite filter_none; [by rewrite app_nil_r|].
    apply Forall_take. eapply Forall_impl; [exact HN|]. by intros r -> H. }
  assert (filter (fun r => website_norm r <> "") (W ++ N) = W) as Hall.
  { rewrite <- (firstn_all (W ++ N)), Htake.
    apply take_ge. rewrite length_app. lia. }
  destruct cap as [m|]; cbn [truncate]; [|done].
  destruct (Z.ltb_spec 0 m); cbn [andb]; [|done].
  destruct (Z.ltb_spec m (Z.of_nat (length (W ++ N)))),
           (Z.ltb_spec m (Z.of_nat (length W))); try done.
  - rewrite Htake. apply take_ge. lia.
  - rewrite length_app in *. lia.
Qed.

Section MergeThenEnrich.

Variable fetch_site_text : str -> str.

Lemma enrich_with_site (l : list Row) :
  enrich fetch_site_text l
  = enrich fetch_site_text (filter (fun r => website_norm r <> "") l).
Proof.
  unfold enrich. induction l as [|r l IH]; [done|].
  rewrite filter_cons. destruct (decide (website_norm r <> "")) as [Hne|He].
  - cbn [omap list_omap]. by rewrite IH.
  - cbn [omap list_omap]. rewrite enrich_row_skips; [done|].
    apply website_norm_empty. by destruct (decide (website_norm r = "")).
Qed.

(** X11: when no cell of the two files is a missing-value marker of
    pandas, the enriched roster does not depend on the merge path.
    Whenever the fallback path writes a roster, the pandas path writes one
    too, and enriching either gives the same rows, whatever the cap; and
    when the fallback path writes none (no row has a website), whatever
    the pandas path writes is enriched to nothing. *)
Theorem enrich_after_merge_is_path_independent (na_values : str -> bool)
    (search_file conf_file : option (list Row)) (cap : option Z) :
  Forall (fun r => plain na_values r = true) (scanned search_file conf_file) ->
  let pandas :=
    merge_raw_sources true (read_csv na_values <$> search_file)
      (read_csv na_values <$> conf_file) cap in
  let fallback := merge_raw_sources false search_file conf_file cap in
  (forall out_fallback,
      fallback = Some out_fallback ->
      exists out_pandas,
        pandas = Some out_pandas
        /\ enrich fetch_site_text out_pandas
           = enrich fetch_site_text out_fallback)
  /\ (fallback = None ->
      forall out_pandas,
        pandas = Some out_pandas -> enrich fetch_site_text out_pandas = []).
Proof.
  intros [-> ->]%read_csv_plain_source. cbv zeta.
  rewrite !merge_raw_sources_eq.
  assert (enrich fetch_site_text
            (truncate cap (merged_rows true (scanned search_file conf_file)))
          = enrich fetch_site_text
              (truncate cap (merged_rows false (scanned search_file conf_file))))
    as Hsame.
  { rewrite enrich_with_site. unfold merged_rows.
    rewrite truncate_with_site, app_nil_r;
      [done | apply with_site_rows | apply (without_site_rows true)]. }
  split.
  - intros out_fallback Hf.
    assert (out_fallback
            = truncate cap (merged_rows false (scanned search_file conf_file)))
      as ->.
    { destruct (merged_rows false (scanned search_file conf_file)); [done|].
      by injection Hf as <-. }
    exists (truncate cap (merged_rows true (scanned search_file conf_file))).
    split; [|exact Hsame].
    destruct search_file, conf_file; done.
  - intros Hf out_pandas Hp.
    assert (merged_rows false (scanned search_file conf_file) = []) as Hnil
      by (destruct (merged_rows false (scanned search_file conf_file)); done).
    assert (out_pandas
            = truncate cap (merged_rows true (scanned search_file conf_file)))
      as ->.
    { destruct search_file, conf_file; try done; congruence. }
    rewrite Hsame, Hnil.
    by rewrite (prefix_nil_inv _ (truncate_prefix cap [])).
Qed.

(** X12: on the fallback path nothing is lost between merger and
    enricher: every merged row is enriched, in order, with its name,
    website, notes, source and conference unchanged. *)
Theorem fallback_merge_rows_are_all_enriched
    (search_csv conf_csv : option (list Row)) (cap : option Z) (out : list Row) :
  merge_raw_sources false search_csv conf_csv cap = Some out ->
  identity <$> enrich fetch_site_text out = identity <$> out.
Proof.
  intros ->%merge_raw_sources_spec.
  assert (Forall (fun r => Py.strip (Website r) <> "")
            (truncate cap (merged_rows false (scanned search_csv conf_csv))))
    as Hall.
  { eapply Forall_prefix; [apply truncate_prefix|].
    unfold merged_rows. rewrite app_nil_r.
    eapply Forall_impl; [apply with_site_rows|].
    intros r Hr E. by apply Hr, website_norm_empty. }
  induction Hall as [|r l Hr _ IH]; [done|].
  unfold enrich in *. cbn [omap list_omap].
  destruct (enrich_row_keeps fetch_site_text r Hr) as (r' & -> & Hid).
  rewrite !fmap_cons, Hid. by f_equal.
Qed.

End MergeThenEnrich.

(** ** Discovery runner *)

Lemma add_cancel_l (p a b : str) : p +:+ a = p +:+ b -> a = b.
Proof. induction p as [|c p IH]; cbn; [done|]. intros [= E]. by apply IH. Qed.

Lemma search_inv_more queries q st :
  search_inv queries st -> search_inv (queries ++ [q]) st.
Proof.
  intros (Htot & Hrows & Hnd). repeat split; [done| |done].
  intros row (q' & d & n & sn & E & Hq & Hd & Hskip)%Hrows.
  exists q', d, n, sn. repeat split; try done.
  apply elem_of_app. by left.
Qed.

Lemma add_results_inv max_rows queries q results st :
  q ∈ queries ->
  search_inv queries st ->
  search_inv queries (add_results max_rows q results st).
Proof.
  intros Hq. revert st.
  induction results as [|r results IH]; intros st Hinv; cbn [add_results]; [done|].
  destruct (url r) as [u|]; [|by apply IH].
  destruct (Py.falsy u); [by apply IH|].
  destruct (existsb _ skip_domains) eqn:Hskip; [by apply IH|].
  destruct (bool_decide (domain_from_url u ∈ seen_domains st)) eqn:Hseen;
    [by apply IH|].
  apply bool_decide_eq_false_1 in Hseen.
  match goal with
  | |- search_inv _ (if _ then ?s else _) =>
      assert (search_inv queries s) as Hinv'
  end.
  { destruct Hinv as (Htot & Hrows & Hnd). repeat split; cbn.
    - rewrite length_app, Htot. cbn. lia.
    - intros row [Hin | ->%list_elem_of_singleton]%elem_of_app.
      + destruct (Hrows row Hin) as (q' & d & n & sn & E & Hq' & Hd & Hs).
        exists q', d, n, sn. repeat split; try done.
        by apply elem_of_union_r.
      + eexists q, (domain_from_url u), _, _.
        repeat split; [done | | done].
        by apply elem_of_union_l, elem_of_singleton.
    - rewrite fmap_app. apply NoDup_app. repeat split; [done| |].
      + intros w (row & -> & Hin)%list_elem_of_fmap.
        intros E%list_elem_of_singleton.
        destruct (Hrows row Hin) as (q' & d & n & sn & -> & _ & Hd & _).
        cbn [Website search_row] in E. apply add_cancel_l in E.
        by rewrite E in Hd.
      + apply NoDup_singleton. }
  destruct (reached _ _); [done | by apply IH].
Qed.

Lemma search_loop_inv max_rows calls st queries :
  search_inv queries st ->
  let '(st', queries') := search_loop max_rows calls st queries in
  search_inv queries' st'.
Proof.
  revert st queries.
  induction calls as [|[q [results|]] calls IH]; intros st queries Hinv;
    cbn [search_loop]; [done| |].
  - assert (search_inv (queries ++ [q])
              (add_results max_rows q results st)) as Hinv'.
    { apply add_results_inv; [apply elem_of_app; right; apply list_elem_of_here|].
      by apply search_inv_more. }
    destruct (reached _ _); [done | by apply IH].
  - by apply IH, search_inv_more.
Qed.

(** X13: whatever the provider returns, the rows the search runner ends
    with have pairwise different websites; each has the form
    ["https://" + domain] with a domain that contains none of the skipped
    sites, carries the source ["search:" + q] of a query that was made, and
    has empty HQ, category, fit, conference and classification. *)
Theorem search_rows_are_unique_and_well_formed
    (calls : list (str * option (list SearchResult))) (max_rows : option Z) :
  let out := run_search_discovery calls max_rows in
  NoDup (Website <$> out.1)
  /\ forall row, row ∈ out.1 ->
       (exists domain,
           Website row = "https://" +:+ domain
           /\ existsb (fun skip => Py.contains skip domain) skip_domains = false)
       /\ (exists q, Source row = "search:" +:+ q /\ q ∈ out.2)
       /\ HQ row = "" /\ Category row = "" /\ Fit row = ""
       /\ Conference row = "" /\ Classification row = "".
Proof.
  cbv zeta. unfold run_search_discovery.
  assert (search_inv [] search_start) as Hstart.
  { repeat split; [|constructor]. intros row H. by apply elem_of_nil in H. }
  pose proof (search_loop_inv max_rows calls search_start [] Hstart) as Hinv.
  destruct (search_loop max_rows calls search_start []) as [st queries].
  destruct Hinv as (_ & Hrows & Hnd). cbn [fst snd]. split; [done|].
  intros row (q & d & n & sn & -> & Hq & _ & Hskip)%Hrows.
  repeat split; [by exists d | by exists q].
Qed.

Lemma add_results_bound m q results st :
  (0 < m)%Z ->
  (total_rows st < m)%Z ->
  (total_rows (add_results (Some m) q results st) <= m)%Z.
Proof.
  intros Hm. revert st.
  induction results as [|r results IH]; intros st Hst; cbn [add_results]; [lia|].
  destruct (url r) as [u|]; [|by apply IH].
  destruct (Py.falsy u); [by apply IH|].
  destruct (existsb _ skip_domains); [by apply IH|].
  destruct (bool_decide (domain_from_url u ∈ seen_domains st)); [by apply IH|].
  cbn [reached total_rows].
  destruct (Z.eqb_spec m 0); [lia|]. cbn [negb andb].
  destruct (Z.leb_spec m (total_rows st + 1)); cbn [total_rows]; [lia|].
  apply IH. cbn. lia.
Qed.

Lemma search_loop_bound m calls st queries :
  (0 < m)%Z ->
  (total_rows st < m)%Z ->
  let out := search_loop (Some m) calls st queries in
  (total_rows out.1 <= m)%Z
  /\ ((total_rows out.1 < m)%Z -> out.2 = queries ++ calls.*1).
Proof.
  intros Hm. revert st queries.
  induction calls as [|[q [results|]] calls IH]; intros st queries Hst;
    cbn [search_loop].
  - cbn. split; [lia | by rewrite app_nil_r].
  - pose proof (add_results_bound m q results st Hm Hst) as Hb.
    cbn [reached]. destruct (Z.eqb_spec m 0); [lia|]. cbn [negb andb].
    destruct (Z.leb_spec m (total_rows (add_results (Some m) q results st))).
    + cbn [fst snd]. split; [lia | intros; lia].
    + destruct (IH (add_results (Some m) q results st) (queries ++ [q]))
        as [H1 H2]; [done|].
      split; [done|]. intros Hlt. rewrite (H2 Hlt), fmap_cons, <- app_assoc. done.
  - destruct (IH st (queries ++ [q]) Hst) as [H1 H2].
    split; [done|]. intros Hlt. rewrite (H2 Hlt), fmap_cons, <- app_assoc. done.
Qed.

(** X14: with a positive row limit [m] the search runner ends with at
    most [m] rows, and it leaves queries out only when it has reached the
    limit: with fewer than [m] rows every query was handed to the
    provider. *)
Theorem search_row_limit
    (calls : list (str * option (list SearchResult))) (m : Z) :
  (0 < m)%Z ->
  let out := run_search_discovery calls (Some m) in
  (Z.of_nat (length out.1) <= m)%Z
  /\ ((Z.of_nat (length out.1) < m)%Z -> out.2 = calls.*1).
Proof.
  intros Hm. cbv zeta. unfold run_search_discovery.
  assert (search_inv [] search_start) as Hstart.
  { repeat split; [|constructor]. intros row H. by apply elem_of_nil in H. }
  pose proof (search_loop_inv (Some m) calls search_start [] Hstart) as Hinv.
  pose proof (search_loop_bound m calls search_start [] Hm) as Hb.
  destruct (search_loop (Some m) calls search_start []) as [st queries].
  destruct Hinv as (Htot & _). cbn [fst snd] in *. rewrite <- Htot.
  apply Hb. cbn. lia.
Qed.

(** ** Conference runner under [main] *)

Lemma cap_rows_length m (l : list Row) :
  (0 < m)%Z -> (Z.of_nat (length (cap_rows (Some m) l)) <= m)%Z.
Proof.
  intros Hm. cbn [cap_rows].
  destruct (Z.eqb_spec m 0); [lia|]. cbn [negb andb].
  destruct (Z.ltb_spec m (Z.of_nat (length l))); [|lia].
  destruct (Z.leb_spec 0 m); [|lia]. rewrite length_take. lia.
Qed.

(** X15: the conference stage as [main] runs it.  For every value of
    [--max-conf-rows] a failed fetch or parse adds no row and stops
    nothing: the rows are those of the run over the successful conferences
    alone.  A positive value [m] leaves at most [m] rows; zero or a
    negative value means no limit. *)
Theorem conference_stage_of_main
    (calls : list (ConferenceConfig * option str)) (arg : option Z) :
  (run_conference_scrape calls (cli_cap arg)).1
    = (run_conference_scrape (filter conf_ok calls) (cli_cap arg)).1
  /\ (forall m, arg = Some m -> (0 < m)%Z ->
        (Z.of_nat (length (run_conference_scrape calls (cli_cap arg)).1) <= m)%Z)
  /\ (forall m, arg = Some m -> (m <= 0)%Z ->
        run_conference_scrape calls (cli_cap arg)
        = (concat ((fun call => default [] (scraped call)) <$> calls),
           (fun call => conf_name call.1) <$> calls)).
Proof.
  repeat split.
  - unfold run_conference_scrape.
    pose proof (conf_loop_skips (cli_cap arg) calls [] [] []) as E.
    destruct (conf_loop (cli_cap arg) calls _ _),
             (conf_loop (cli_cap arg) (filter _ calls) _ _).
    cbn in *. rewrite E; [done|].
    destruct arg as [x|]; [|done]. cbn [cli_cap].
    destruct (Z.leb_spec x 0); [done|]. cbn.
    destruct (Z.eqb_spec x 0); [done|]. cbn. apply Z.leb_gt. lia.
  - intros m -> Hm. cbn [cli_cap]. destruct (Z.leb_spec m 0); [lia|].
    unfold run_conference_scrape.
    destruct (conf_loop (Some m) calls [] []). cbn [fst].
    by apply cap_rows_length.
  - intros m -> Hm. cbn [cli_cap]. destruct (Z.leb_spec m 0); [|lia].
    unfold run_conference_scrape. by rewrite conf_loop_uncapped.
Qed.

(** ** Name cleaner *)

Lemma last_default {A} (l : list A) (d : A) :
  l <> [] -> last l = Some (List.last l d).
Proof.
  induction l as [|x [|y l] IH]; [done|done|]. intros _.
  change (last (x :: y :: l)) with (last (y :: l)).
  change (List.last (x :: y :: l) d) with (List.last (y :: l) d).
  by apply IH.
Qed.

(** X16: the name cleaner returns the fallback domain, the trimmed title,
    or the first or the last segment of the title, never a segment in
    between; and with a non-empty fallback it never returns the empty
    string. *)
Theorem clean_result_name_shape (title domain_fallback : str) :
  let parts :=
    filter (fun p => p <> "") (Py.strip <$> Re.split separator_pattern title) in
  let name := clean_result_name title domain_fallback in
  (name = domain_fallback \/ name = Py.strip title
   \/ head parts = Some name \/ last parts = Some name)
  /\ (domain_fallback <> "" -> name <> "").
Proof.
  cbv zeta. unfold clean_result_name.
  destruct (Py.falsy title); [by split; [left|]|].
  destruct (filter _ _) as [|base rest] eqn:Eparts.
  - unfold Py.or. destruct (Py.strip title) as [|c t].
    + cbn. by split; [left|].
    + cbn. by split; [right; left|].
  - assert (base <> "") as Hbase.
    { assert (base ∈ base :: rest) as Hin by apply list_elem_of_here.
      rewrite <- Eparts in Hin. by apply list_elem_of_filter in Hin as [? _]. }
    assert (Py.or base domain_fallback = base) as Eor by (by destruct base).
    rewrite Eor.
    set (brand := if (1 <? length (base :: rest))%nat
                  then List.last (base :: rest) "" else "").
    assert (Py.falsy brand = false -> last (base :: rest) = Some brand /\ brand <> "")
      as Hbrand.
    { subst brand. destruct (1 <? length (base :: rest))%nat; [|done].
      intros Hf. split; [by apply last_default|]. by intros E; rewrite E in Hf. }
    destruct (Py.falsy brand) eqn:Hf; cbn [negb andb].
    + split; [right; right; by left | done].
    + destruct (Hbrand eq_refl) as [Hlast Hne].
      destruct (_ && _); [split; [by repeat right | done]|].
      destruct (_ && _); [split; [by repeat right | done]|].
      split; [right; right; by left | done].
Qed.

Lemma lit_head_mismatch (a : char) (l : str) prev (s : str) :
  match s with Str c _ => N.eqb a c = false | "" => True end ->
  Re.lit (Str a l) prev s = None.
Proof. destruct s as [|c s]; [done|]. cbn. by intros ->. Qed.

Lemma give_back_none {A} (k : Re.cont A) prev s caps lo n :
  (forall j, j <= n ->
     (let '(prev', s') := Re.advance j prev s in k prev' s' caps) = None) ->
  Re.give_back k prev s caps lo n = None.
Proof.
  induction n as [|n IH]; intros Hk; cbn [Re.give_back].
  - by rewrite (Hk 0).
  - rewrite (Hk (S n)) by lia. destruct (n <? lo)%nat; [done|].
    apply IH. intros j Hj. apply Hk. lia.
Qed.

Lemma advance_all_chars p j prev (s : str) :
  Py.all_chars p s = true -> Py.all_chars p (Re.advance j prev s).2 = true.
Proof.
  revert prev s. induction j as [|j IH]; intros prev [|c s]; cbn; try done.
  intros [_ Hs]%andb_true_iff. by apply IH.
Qed.

Lemma separator_no_match prev (s : str) :
  no_separator s = true -> Re.match_here separator_pattern prev s = None.
Proof.
  intros Hs. unfold Re.match_here, separator_pattern, Re.seq, Re.alt, Re.star.
  cbn [Re.exec].
  destruct (Re.run Py.isspace None s <? 0)%nat eqn:Hlt;
    [by apply Nat.ltb_lt in Hlt; lia|].
  apply give_back_none. intros j _.
  pose proof (advance_all_chars _ j prev s Hs) as Hj.
  destruct (Re.advance j prev s) as [p s']. cbn [snd] in Hj.
  assert (match s' with
          | Str c _ => separator c = false
          | "" => True
          end) as Hc.
  { destruct s' as [|c s']; [done|]. cbn in Hj.
    apply andb_true_iff in Hj as [Hc _]. by apply negb_true_iff in Hc. }
  cbn [Re.exec].
  rewrite !lit_head_mismatch; [done|..];
    destruct s' as [|c s']; try done; unfold separator in Hc;
    repeat (apply orb_false_iff in Hc as [Hc ?]); done.
Qed.

Lemma separator_search_none i prev (s : str) :
  no_separator s = true -> Re.search_from separator_pattern i prev s = None.
Proof.
  revert i prev. induction s as [|c s IH]; intros i prev Hs;
    cbn [Re.search_from]; rewrite (separator_no_match prev _ Hs); [done|].
  apply IH. cbn in Hs. by apply andb_true_iff in Hs as [_ ?].
Qed.

(** X17: a title without any of the five separators (bar, en dash, em
    dash, hyphen, colon) is returned trimmed, or replaced by the fallback
    domain when it is blank. *)
Theorem clean_result_name_without_separator (title domain_fallback : str) :
  no_separator title = true ->
  clean_result_name title domain_fallback
  = Py.or (Py.strip title) domain_fallback.
Proof.
  intros Hs. unfold clean_result_name.
  destruct title as [|c t] eqn:Et; [done|]. rewrite <- Et in *.
  assert (Py.falsy title = false) as -> by (by rewrite Et).
  assert (Re.split separator_pattern title = [title]) as ->.
  { unfold Re.split. destruct (Py.len title); cbn [Re.split_go];
      by rewrite separator_search_none. }
  cbn [fmap list_fmap]. rewrite filter_cons, filter_nil.
  destruct (decide (Py.strip title <> "")) as [Hne|He]; [|done].
  cbn [length Nat.ltb Nat.leb Py.falsy negb andb].
  by destruct (looks_like_marketing (Py.strip title)).
Qed.

(** ** Domains *)

Lemma ascii_lower_isascii (s : str) :
  Py.isascii s = true -> Py.isascii (Py.ascii_lower s) = true.
Proof.
  unfold Py.isascii. induction s as [|c s IH]; [done|].
  change (Py.ascii_lower (Str c s))
    with (Str (Py.lower_char c) (Py.ascii_lower s)).
  cbn [Py.all_chars]. intros [Hc Hs]%andb_true_iff.
  rewrite (IH Hs), andb_true_r. unfold Py.lower_char.
  destruct (Py.isupper c) eqn:Hu; [|done].
  unfold Py.isupper, Py.between in Hu.
  apply andb_true_iff in Hu as [_ H2%N.leb_le]. apply N.ltb_lt. lia.
Qed.

Lemma lower_idem (s : str) : Py.lower (Py.lower s) = Py.lower s.
Proof.
  unfold Py.lower at 2 3. destruct (Py.isascii s) eqn:Hs.
  - unfold Py.lower. rewrite (ascii_lower_isascii s Hs).
    pose proof (Py.unicode_lower_idem (Unicode := Py.ascii_only) s) as E.
    cbn [Py.unicode_lower Py.ascii_only] in E.
    by rewrite (ascii_lower_isascii s Hs) in E.
  - apply Py.unicode_lower_idem.
Qed.

Lemma lower_no_slash (s : str) :
  Py.all_chars (fun c => negb (N.eqb c (ch "/"))) s = true ->
  Py.all_chars (fun c => negb (N.eqb c (ch "/"))) (Py.lower s) = true.
Proof.
  unfold Py.lower. destruct (Py.isascii s).
  - apply (Py.unicode_lower_slash (Unicode := Py.ascii_only) s).
  - apply Py.unicode_lower_slash.
Qed.

Lemma split_not_nil sep (s : str) : Py.split sep s <> [].
Proof.
  induction s as [|c s IH]; [done|]. cbn.
  destruct (Py.split sep s); [done|]. by destruct (N.eqb c sep).
Qed.

(** A text without the separator is its own single part. *)
Lemma split_without_sep sep (s : str) :
  Py.all_chars (fun c => negb (N.eqb c sep)) s = true -> Py.split sep s = [s].
Proof.
  induction s as [|c s IH]; [done|]. cbn.
  intros [Hc Hs]%andb_true_iff. rewrite (IH Hs).
  apply negb_true_iff in Hc. by rewrite Hc.
Qed.

(** No part contains the separator. *)
Lemma split_parts sep (s w : str) :
  w ∈ Py.split sep s -> Py.all_chars (fun c => negb (N.eqb c sep)) w = true.
Proof.
  revert w. induction s as [|c s IH]; intros w; cbn.
  - by intros ->%list_elem_of_singleton.
  - pose proof (split_not_nil sep s) as Hne.
    destruct (Py.split sep s) as [|x xs]; [done|].
    destruct (N.eqb c sep) eqn:Hc.
    + intros [-> | Hin]%elem_of_cons; [done | by apply IH].
    + intros [-> | Hin]%elem_of_cons.
      * cbn. rewrite Hc. cbn. apply IH, list_elem_of_here.
      * by apply IH, list_elem_of_further.
Qed.

Lemma split_https (d : str) :
  Py.split (ch "/") ("https://" +:+ d) = "https:" :: "" :: Py.split (ch "/") d.
Proof.
  rewrite !append_cons, append_nil_l. cbn [Py.split].
  pose proof (split_not_nil (ch "/") d) as Hne.
  by destruct (Py.split (ch "/") d).
Qed.

(** X18: the website the search runner writes leads back to its domain.
    For a result URL with at least three slash-separated parts (a scheme
    and a host), the domain the enricher extracts from
    ["https://" + domain] is the domain the runner extracted from the
    URL. *)
Theorem search_website_round_trip (u d : str) :
  Py.split (ch "/") u !! 2%nat = Some d ->
  domain_from_url ("https://" +:+ domain_from_url u) = domain_from_url u.
Proof.
  intros Hd. unfold domain_from_url at 2 3. rewrite Hd.
  assert (Py.all_chars (fun c => negb (N.eqb c (ch "/"))) (Py.lower d) = true) as Hns.
  { apply lower_no_slash, (split_parts (ch "/") u). by eapply list_elem_of_lookup_2. }
  unfold domain_from_url. rewrite split_https, (split_without_sep _ _ Hns).
  cbn. apply lower_idem.
Qed.

(** ** Exhibitor adapters *)

(** X19: the TradeTech adapter returns one row for every card that has a
    heading, in page order, named by that heading even when it is empty;
    every row carries the conference name and the source
    ["conf:" + name], has empty HQ, category, fit and classification, and
    a website that is empty or begins with "http". *)
Theorem tradetech_rows (cards : list Card) (conf_name : str) :
  let found := parse_tradetech_fx cards conf_name in
  Name <$> found = omap card_heading cards
  /\ forall row, row ∈ found ->
       Conference row = conf_name
       /\ Source row = "conf:" +:+ conf_name
       /\ HQ row = "" /\ Category row = "" /\ Fit row = ""
       /\ Classification row = ""
       /\ (Website row = "" \/ Py.startswith "http" (Website row) = true).
Proof.
  cbv zeta. induction cards as [|c cards [IHn IHr]]; cbn [parse_tradetech_fx].
  - split; [done|]. intros row H. by apply elem_of_nil in H.
  - cbn [omap list_omap]. destruct (card_heading c) as [name|]; [|done].
    split; [by rewrite fmap_cons, IHn|].
    intros row [-> | Hin]%elem_of_cons; [|by apply IHr].
    cbn [conf_row Conference Source HQ Category Fit Classification Website].
    repeat split.
    destruct (card_href c) as [href|]; [|by left].
    destruct (Py.falsy href); [by left|].
    destruct (Py.startswith "http" href) eqn:Eh; [by right|].
    destruct (Py.startswith "www" href); [by right | by left].
Qed.

Section AdapterProperties.

Variable urljoin : str -> str -> str.
Variable fia_table : str -> option (list (list Cell)).
Variable sponsor_cards : str -> list Card.

(** The profile link of a cell raises exactly when its [href] neither
    begins with "http" nor contains "profile.cfm" while its [onclick]
    contains "profile.cfm". *)
Lemma fia_profile_url_raises (link : option Anchor) :
  fia_profile_url urljoin link = None
  <-> exists a, link = Some a
              /\ Py.startswith "http" (a_href a) = false
              /\ Py.contains "profile.cfm" (a_href a) = false
              /\ Py.contains "profile.cfm" (a_onclick a) = true.
Proof.
  unfold fia_profile_url. destruct link as [[href onclick]|]; cbn [a_href a_onclick].
  - assert (Py.startswith "http" "" = false) as E1 by done.
    assert (Py.contains "profile.cfm" "" = false) as E2 by done.
    split.
    + destruct href as [|c h]; cbn [Py.falsy negb andb].
      * destruct onclick as [|c o]; cbn [Py.falsy negb andb]; [done|].
        destruct (Py.contains "profile.cfm" (Str c o)) eqn:Eo; [|done].
        intros _. by eexists.
      * destruct (Py.startswith "http" (Str c h)) eqn:Eh; [done|].
        destruct (Py.contains "profile.cfm" (Str c h)) eqn:Ec; [done|].
        destruct onclick as [|c' o]; cbn [Py.falsy negb andb]; [done|].
        destruct (Py.contains "profile.cfm" (Str c' o)) eqn:Eo; [|done].
        intros _. by eexists.
    + intros (a & [= <-] & Hh & Hc & Ho). cbn [a_href a_onclick] in *.
      rewrite Hh, Hc, Ho, !andb_false_r.
      destruct onclick; [by rewrite E2 in Ho | done].
  - split; [done | by intros (a & [=] & _)].
Qed.

(** X20: the FIA adapter answers a page without the exhibitor table with
    no rows and no error.  When it returns, every row has a non-empty
    name, carries the conference name and the source ["conf:" + name], has
    empty HQ, category, fit and classification, and its notes are empty
    or "Booth: " followed by a non-empty booth code; there is at most one
    row per table row. *)
Theorem fia_rows_are_named (table : option (list (list Cell)))
    (conf_name : str) (found : list Row) :
  parse_fia_expo urljoin None conf_name = Some []
  /\ (parse_fia_expo urljoin table conf_name = Some found ->
      length found <= length (default [] table)
      /\ forall row, row ∈ found ->
           Name row <> ""
           /\ Conference row = conf_name
           /\ Source row = "conf:" +:+ conf_name
           /\ HQ row = "" /\ Category row = "" /\ Fit row = ""
           /\ Classification row = ""
           /\ (Notes row = ""
               \/ exists booth, booth <> "" /\ Notes row = "Booth: " +:+ booth)).
Proof.
  split; [done|]. unfold parse_fia_expo.
  destruct table as [trs|]; cbn [default]; unfold id.
  2:{ intros [= <-]. split; [done|]. intros row H. by apply elem_of_nil in H. }
  revert found. induction trs as [|tds trs IH]; intros found; cbn [fia_rows].
  { intros [= <-]. split; [done|]. intros row H. by apply elem_of_nil in H. }
  assert (fia_rows urljoin trs conf_name = Some found ->
          length found <= length (tds :: trs)
          /\ forall row, row ∈ found ->
               Name row <> "" /\ Conference row = conf_name
               /\ Source row = "conf:" +:+ conf_name
               /\ HQ row = "" /\ Category row = "" /\ Fit row = ""
               /\ Classification row = ""
               /\ (Notes row = ""
                   \/ exists booth, booth <> "" /\ Notes row = "Booth: " +:+ booth))
    as Hskip.
  { intros [Hlen Hrows]%IH. split; [cbn; lia | done]. }
  destruct tds as [|booth_cell [|name_cell rest]]; [done..|].
  destruct (fia_profile_url urljoin (td_link name_cell)); [|done].
  destruct (td_text_spaced name_cell) as [|c name] eqn:Ename; [done|].
  cbn [Py.falsy].
  destruct (fia_rows urljoin trs conf_name) as [found'|]; [|done].
  cbn. intros [= <-]. destruct (IH found' eq_refl) as [Hlen Hrows].
  split; [cbn; lia|].
  intros row [-> | Hin]%elem_of_cons; [|by apply Hrows].
  cbn. repeat split; [done|].
  destruct (td_text booth_cell) as [|b booth] eqn:Eb; [by left|].
  right. by exists (Str b booth).
Qed.

(** X21: one exhibitor whose link has only an [onclick] profile reference
    makes the FIA adapter raise, whatever else is on the page; the
    conference runner then records no FIA row at all and goes on to
    TradeTech, whose rows are the whole result. *)
Theorem fia_popup_link_voids_the_conference
    (fia_html tt_html : str)
    (before after : list (list Cell)) (booth_cell name_cell : Cell)
    (rest : list Cell) (a : Anchor) :
  fia_table fia_html = Some (before ++ (booth_cell :: name_cell :: rest) :: after) ->
  td_link name_cell = Some a ->
  Py.startswith "http" (a_href a) = false ->
  Py.contains "profile.cfm" (a_href a) = false ->
  Py.contains "profile.cfm" (a_onclick a) = true ->
  parse_fia_expo urljoin (fia_table fia_html) "FIA_Expo_2024" = None
  /\ scrape_conferences urljoin fia_table sponsor_cards
       [Some fia_html; Some tt_html] None
     = (parse_tradetech_fx (sponsor_cards tt_html) "TradeTech_FX_USA_2025",
        ["FIA_Expo_2024"; "TradeTech_FX_USA_2025"]).
Proof.
  intros Htable Hlink Hh Hc Ho.
  assert (parse_fia_expo urljoin (fia_table fia_html) "FIA_Expo_2024" = None)
    as Hraise.
  { rewrite Htable. cbn [parse_fia_expo]. clear Htable.
    induction before as [|tds before IH]; cbn [app fia_rows].
    - assert (fia_profile_url urljoin (td_link name_cell) = None) as ->; [|done].
      apply fia_profile_url_raises. by exists a.
    - rewrite IH. destruct tds as [|b [|n r]]; [done..|].
      destruct (fia_profile_url urljoin (td_link n)); [|done].
      by destruct (Py.falsy (td_text_spaced n)). }
  split; [done|].
  unfold scrape_conferences, run_conference_scrape, conferences.
  cbn [zip zip_with conf_loop reached scrape_one parser conf_name].
  rewrite Hraise. cbn. done.
Qed.

End AdapterProperties.

(** ** Headquarters of a hub *)

Lemma hub_hq_label hubs t label :
  hub_hq hubs t = Some label -> label ∈ hubs.*2.
Proof.
  induction hubs as [|[keys l] hubs IH]; cbn [hub_hq]; [done|].
  destruct (existsb _ keys).
  - intros [= <-]. apply list_elem_of_here.
  - intros H. by apply list_elem_of_further, IH.
Qed.

(** X22: when the text has no explicit phrase and names a hub, the
    resolver answers with the hub's label, and the normalization the
    enricher applies next leaves that label as it is, except that the
    three Canadian labels come out with the country in capitals
    ("Toronto, CANADA"). *)
Theorem hub_label_after_normalization (text label : str) :
  explicit_hq hq_patterns (Py.lower text) = None ->
  hub_hq hub_map (Py.lower text) = Some label ->
  guess_hq text = label
  /\ (normalize_hq label = label
      \/ exists city, label = city +:+ ", Canada"
                      /\ normalize_hq label = city +:+ ", CANADA").
Proof.
  intros He Hh. split; [unfold guess_hq; by rewrite He, Hh|].
  apply hub_hq_label in Hh. revert label Hh. apply Forall_forall.
  repeat (apply Forall_cons; split;
          [first [ by left
                 | right; by exists "Toronto"
                 | right; by exists "Montreal"
                 | right; by exists "Vancouver" ]|]).
  apply Forall_nil_2.
Qed.

End Further.

(** ** The further properties at concrete inputs *)

Section FurtherAtInputs.

Existing Instance Py.ascii_only.

Lemma generic_it_iff_no_signal_witness :
  classify_category "we build order management software, ems included"
  = "Generic IT".
Proof.
  apply (proj2 (generic_it_iff_no_signal
                  "we build order management software, ems included")).
  vm_compute. repeat split; try reflexivity. right. by split.
Defined.

Lemma classified_category_scores_most_witness :
  (3 <= get (scores 1 1 1 0 0 0 false)
          (classify_category "hedge fund managed it low latency"))%nat.
Proof.
  apply (classified_category_scores_most
           "hedge fund managed it low latency" "Trading Infra MSP" 3).
  vm_compute. in_list.
Defined.

Lemma enriched_rows_are_coherent_witness :
  let row := mkRow "Bloomberg" "https://bloomberg.example" "" "" "" "" "" "" "" in
  let row' := mkRow "Bloomberg" "https://bloomberg.example" "" "Market Data Ops"
                "Core" "" "" "" "Pattern / Comp / Future Partner" in
  Category row' ∈ categories
  /\ Fit row' = classify_fit (Category row')
  /\ Classification row'
     = if bool_decide (Py.lower (Py.strip (Name row')) ∈ KNOWN_COMP_NAMES)
          || Py.eqb (Category row') "Generic IT"
       then "Pattern / Comp / Future Partner"
       else "Potential acquisition target (near-term)".
Proof.
  intros row row'.
  apply (enriched_rows_are_coherent (fun _ => "market data") [row] row').
  vm_compute. apply list_elem_of_here.
Defined.

Lemma unfetched_site_is_generic_witness :
  let row := mkRow "Acme" " https://acme.example " "boston, ma" "" "" "" "" "" "" in
  enrich_row (fun _ => "") row
  = Some (mkRow "Acme" " https://acme.example " "Boston, MA" "Generic IT"
            "Stretch" "" "" "" "Pattern / Comp / Future Partner").
Proof.
  intros row.
  apply (unfetched_site_is_generic (fun _ => "") row);
    [discriminate | reflexivity |].
  apply (bool_decide_eq_false_1 (_ ∈ _)). by vm_compute.
Defined.

Lemma website_dedup_first_wins_witness :
  let first := mkRow "Beta" "https://Beta.example " "" "" "" "" "search:q" "" "" in
  let again := mkRow "Beta Inc" "https://beta.example" "" "" "" "" "conf:X" "X" "" in
  first ∈ [first].
Proof.
  intros first again.
  assert (merge_raw_sources false (Some [first]) (Some [again]) None
          = Some [first]) as Hout by (by vm_compute).
  destruct (website_dedup_first_wins false (Some [first]) (Some [again])
              [first] Hout) as [_ Hfirst].
  apply (Hfirst [] first [again]); [reflexivity | by vm_compute |].
  intros x Hx. by apply elem_of_nil in Hx.
Defined.

Lemma merge_output_bounds_witness :
  let a := mkRow "A" "https://a.example" "" "" "" "" "" "" "" in
  let b := mkRow "B" "https://b.example" "" "" "" "" "" "" "" in
  (Z.of_nat (length [a]) <= 1)%Z.
Proof.
  intros a b.
  assert (merge_raw_sources true (Some [a]) (Some [b]) (Some 1%Z) = Some [a])
    as Hout by (by vm_compute).
  destruct (merge_output_bounds true (Some [a]) (Some [b]) (Some 1%Z) [a] Hout)
    as (_ & Hcap & _).
  apply (Hcap 1%Z eq_refl). lia.
Defined.

Lemma merge_is_idempotent_witness :
  let a := mkRow "Acme" "" "" "" "" "" "conf:X" "X" "" in
  let b := mkRow "Beta" "https://beta.example" "" "" "" "" "conf:X" "X" "" in
  merge_raw_sources true (Some [b; a]) (Some [b; a]) None = Some [b; a].
Proof.
  intros a b.
  apply (merge_is_idempotent true None (Some [a; b; a]) [b; a]).
  by vm_compute.
Defined.

Lemma paths_agree_on_rows_with_website_witness :
  let a := mkRow "A" "https://a.example" "" "" "" "" "" "" "" in
  let b := mkRow "B" "https://A.example" "" "" "" "" "" "" "" in
  let na_values := fun cell => Py.eqb cell "NA" || Py.eqb cell "" in
  merge_raw_sources true (read_csv na_values <$> Some [a])
    (read_csv na_values <$> Some [b]) None = Some [a].
Proof.
  intros a b na_values.
  apply (paths_agree_on_rows_with_website na_values (Some [a]) (Some [b])
           None [a]).
  - repeat constructor.
  - repeat constructor; by vm_compute.
  - by vm_compute.
Defined.

Lemma enrich_after_merge_is_path_independent_witness :
  let a := mkRow "Acme" "" "" "" "" "" "conf:X" "X" "" in
  let b := mkRow "Beta" "https://beta.example" "" "" "" "" "conf:X" "X" "" in
  let na_values := fun cell => Py.eqb cell "NA" || Py.eqb cell "" in
  exists out_pandas,
    merge_raw_sources true (read_csv na_values <$> None)
      (read_csv na_values <$> Some [a; b]) None = Some out_pandas
    /\ enrich (fun _ => "") out_pandas = enrich (fun _ => "") [b].
Proof.
  intros a b na_values.
  apply (proj1 (enrich_after_merge_is_path_independent (fun _ => "")
                  na_values None (Some [a; b]) None
                  ltac:(repeat constructor)) [b]).
  by vm_compute.
Defined.

Lemma fallback_merge_rows_are_all_enriched_witness :
  let a := mkRow "Acme" "" "" "" "" "" "conf:X" "X" "" in
  let b := mkRow "Beta" "https://beta.example" "" "" "" "" "conf:X" "X" "" in
  identity <$> enrich (fun _ => "") [b] = identity <$> [b].
Proof.
  intros a b.
  apply (fallback_merge_rows_are_all_enriched (fun _ => "")
           None (Some [a; b]) None [b]). by vm_compute.
Defined.

Lemma search_rows_are_unique_and_well_formed_witness :
  let calls :=
    [ ("hedge fund MSP", None);
      ("market data ops",
       Some [mkResult (Some "Managed IT | Acme") (Some "https://Acme.com/x") "d";
             mkResult (Some "Jobs") (Some "https://www.linkedin.com/acme") "";
             mkResult None (Some "https://acme.com/about") ""]) ] in
  let row := search_row "market data ops" "acme.com" "Acme" "d" in
  exists q, Source row = "search:" +:+ q
            /\ q ∈ (run_search_discovery calls None).2.
Proof.
  intros calls row.
  destruct (search_rows_are_unique_and_well_formed calls None) as [_ Hrows].
  destruct (Hrows row) as (_ & Hq & _); [|exact Hq].
  vm_compute. apply list_elem_of_here.
Defined.

Lemma search_row_limit_witness :
  let calls :=
    [ ("q1", Some [mkResult None (Some "https://a.example/") "";
                   mkResult None (Some "https://b.example/") ""]);
      ("q2", Some [mkResult None (Some "https://c.example/") ""]) ] in
  (Z.of_nat (length (run_search_discovery calls (Some 1%Z)).1) <= 1)%Z.
Proof.
  intros calls.
  apply (search_row_limit calls 1%Z). lia.
Defined.

Lemma conference_stage_of_main_witness :
  let found := [mkRow "Beta" "https://beta.example" "" "" "" "" "conf:B" "B" "";
                mkRow "Gamma" "" "" "" "" "" "conf:B" "B" ""] in
  let up := mkConf "B" "https://b.example/list" (fun _ _ => Some found) in
  let calls := [(up, Some "<html></html>")] in
  (Z.of_nat (length (run_conference_scrape calls (cli_cap (Some 1%Z))).1) <= 1)%Z.
Proof.
  intros found up calls.
  apply (proj1 (proj2 (conference_stage_of_main calls (Some 1%Z))) 1%Z eq_refl).
  lia.
Defined.

Lemma clean_result_name_shape_witness :
  clean_result_name "A | B | C" "x.example" <> "".
Proof.
  apply (proj2 (clean_result_name_shape "A | B | C" "x.example")).
  discriminate.
Defined.

Lemma clean_result_name_without_separator_witness :
  clean_result_name "  Acme Capital Partners " "acme.example"
  = Py.or (Py.strip "  Acme Capital Partners ") "acme.example".
Proof.
  apply (clean_result_name_without_separator
           "  Acme Capital Partners " "acme.example").
  reflexivity.
Defined.

Lemma search_website_round_trip_witness :
  domain_from_url ("https://" +:+ domain_from_url "http://WWW.Acme.com/about/us")
  = domain_from_url "http://WWW.Acme.com/about/us".
Proof.
  apply (search_website_round_trip "http://WWW.Acme.com/about/us" "WWW.Acme.com").
  reflexivity.
Defined.

Lemma tradetech_rows_witness :
  let cards := [ mkCard (Some "Acme") (Some "www.acme.example") None;
                 mkCard None (Some "https://x.example") None;
                 mkCard (Some "") None (Some "no name") ] in
  let row := conf_row "Acme" "https://www.acme.example" "" "TT" in
  Website row = "" \/ Py.startswith "http" (Website row) = true.
Proof.
  intros cards row.
  destruct (tradetech_rows cards "TT") as [_ Hrows].
  apply (Hrows row). vm_compute. apply list_elem_of_here.
Defined.

Lemma fia_rows_are_named_witness :
  let table := Some [ [mkCell "B12" "B12" None;
                       mkCell "Acme" "Acme" (Some (mkAnchor "profile.cfm?id=7" ""))];
                      [mkCell "" "" None] ] in
  let row := conf_row "Acme" "base:profile.cfm?id=7" "Booth: B12" "FIA" in
  Name row <> "".
Proof.
  intros table row.
  destruct (fia_rows_are_named (fun b h => "base:" +:+ h) table "FIA" [row])
    as [_ Hsome].
  destruct Hsome as [_ Hrows]; [by vm_compute|].
  apply (Hrows row). apply list_elem_of_here.
Defined.

Lemma fia_popup_link_voids_the_conference_witness :
  let link := mkAnchor "#" "ExhibitorPopup('profile.cfm?id=7')" in
  let table := [ [mkCell "B12" "B12" None; mkCell "Acme" "Acme" None];
                 [mkCell "B13" "B13" None; mkCell "Beta" "Beta" (Some link)] ] in
  parse_fia_expo (fun b h => b +:+ h) (Some table) "FIA_Expo_2024" = None.
Proof.
  intros link table.
  apply (fia_popup_link_voids_the_conference (fun b h => b +:+ h)
           (fun _ => Some table) (fun _ => []) "" ""
           [[mkCell "B12" "B12" None; mkCell "Acme" "Acme" None]] []
           (mkCell "B13" "B13" None) (mkCell "Beta" "Beta" (Some link)) [] link);
    reflexivity.
Defined.

Lemma hub_label_after_normalization_witness :
  guess_hq "Our Toronto office serves asset managers" = "Toronto, Canada"
  /\ (normalize_hq "Toronto, Canada" = "Toronto, Canada"
      \/ exists city, "Toronto, Canada" = city +:+ ", Canada"
                      /\ normalize_hq "Toronto, Canada" = city +:+ ", CANADA").
Proof.
  apply (hub_label_after_normalization
           "Our Toronto office serves asset managers" "Toronto, Canada");
    by vm_compute.
Defined.

End FurtherAtInputs.

